(** * Verification of the Telegram moderation bot (src/main.py)

    A shallow embedding of the bot's decision logic, followed by the theorems
    that settle the properties its specification states.

    Conventions of the embedding.
    - A Python [str] that is matched (a message text, a banned word, an
      allowlist entry) is the list of its characters, each character being
      its Unicode code point.  What the program takes from Python's Unicode
      tables (the class [\w], whitespace, the case-insensitive matching of
      [re.IGNORECASE], [str.lower]) is not code of the program: it is the
      class [Unicode] below, and every definition that uses it, and every
      theorem about such a definition, holds for whatever tables are given,
      those of Python among them.  A small instance, [tables], is kept for
      running examples.
    - A [str] that is only compared or concatenated (a chat identifier, an
      action, a notification) is a Rocq [string], the UTF-8 bytes of the
      text.
    - A compiled [re.Pattern] is a term of [regex]; [search] is the engine's
      leftmost, priority-ordered backtracking search.
    - The module-level dictionary [data] is a [gmap] from chat identifier to
      settings.  A settings dictionary is a record with one optional field
      for each key of [DEFAULTS], the values having the types [DEFAULTS]
      gives them.  The list objects the settings refer to live in a heap, so
      that two settings holding the same list object are seen to share it.
    - Code that can raise returns an [outcome]; handlers run in the monad
      [M] over the state of the process, which records the platform calls
      made.  What the aiogram library and the Telegram servers answer is a
      [platform].  Writing [data.json] is taken to succeed.
    - Handlers are run one after another; interleaving at [await] is not
      modelled. *)

From Stdlib Require Import ZArith NArith Ascii String List Bool Lia DecimalString.
From Stdlib Require DecimalZ DecimalPos.
From stdpp Require Import gmap strings list fin_maps.
Import ListNotations.

Local Open Scope Z_scope.
Local Open Scope string_scope.
Local Open Scope list_scope.

(* ===================================================================== *)
(** ** Characters and strings of Python *)
(* ===================================================================== *)

Module Text.

(** A character, as its code point, and a string of characters. *)
Abbreviation char := N.
Abbreviation ustring := (list N).

(** What the program uses of Python's Unicode tables. *)
Class Unicode : Type := {
  (** [\w] of the [re] module on [str] patterns *)
  is_word_char : char -> bool;
  (** [str.isspace] on one character: what [str.strip] removes *)
  is_space : char -> bool;
  (** [ci_match c x]: the literal [c] of a pattern compiled with
      [re.IGNORECASE] matches the character [x] *)
  ci_match : char -> char -> bool;
  (** the character matches [[a-z]] in a pattern compiled with
      [re.IGNORECASE] *)
  az_match : char -> bool;
  (** [s.lower()] *)
  lower : ustring -> ustring;
  (** ["".lower() == ""] *)
  lower_empty : lower [] = [];
  (** [" ".isspace()] *)
  is_space_space : is_space 32 = true
}.

(** The characters of an ASCII literal of the source. *)
Definition codes (s : string) : ustring :=
  map N_of_ascii (list_ascii_of_string s).

(** [not s] *)
Definition empty (s : ustring) : bool :=
  match s with
  | [] => true
  | _ :: _ => false
  end.

(** [s.strip()]: leading and trailing whitespace removed. *)
Fixpoint lstrip `{Unicode} (l : ustring) : ustring :=
  match l with
  | c :: l' => if is_space c then lstrip l' else l
  | [] => []
  end.

Definition strip `{Unicode} (s : ustring) : ustring :=
  rev (lstrip (rev (lstrip s))).

(** [needle in hay] on strings: [needle] occurs as a contiguous run. *)
Fixpoint starts_with (needle hay : ustring) : bool :=
  match needle, hay with
  | [], _ => true
  | _ :: _, [] => false
  | a :: needle', b :: hay' => N.eqb a b && starts_with needle' hay'
  end.

Fixpoint occurs_in (needle hay : ustring) : bool :=
  starts_with needle hay ||
  match hay with
  | [] => false
  | _ :: hay' => occurs_in needle hay'
  end.

Definition str_in (needle hay : ustring) : bool := occurs_in needle hay.

End Text.

(* ===================================================================== *)
(** ** The [re] engine on the fragment the bot uses *)
(* ===================================================================== *)

Module Re.
Import Text.

(** Patterns are compiled with [re.IGNORECASE].  There is no unbounded
    repetition in any pattern of the program.  [Lit c] is the character [c]
    of the pattern, [AZ] the class [[a-z]], [WordB] the assertion [\b]. *)
Inductive regex : Type :=
| Eps
| Lit (c : char)
| AZ
| WordB
| Seq (r1 r2 : regex)
| Alt (r1 r2 : regex).

Definition word_opt `{Unicode} (o : option char) : bool :=
  match o with
  | Some c => is_word_char c
  | None => false
  end.

(** [\b]: exactly one of the two neighbours is a word character, the
    outside of the string counting as a non-word character. *)
Definition at_boundary `{Unicode} (prev next : option char) : bool :=
  xorb (word_opt prev) (word_opt next).

(** The character before the current position once [m] has been consumed. *)
Definition prev_after (prev : option char) (m : ustring) : option char :=
  match last m with
  | Some c => Some c
  | None => prev
  end.

(** All ways of matching [r] at the head of [s], in the order in which the
    backtracking engine tries them; each is the text consumed and the text
    left.  [prev] is the character just before [s]. *)
Fixpoint run `{Unicode} (r : regex) (prev : option char) (s : ustring)
  : list (ustring * ustring) :=
  match r with
  | Eps => [([], s)]
  | Lit c =>
      match s with
      | x :: s' => if ci_match c x then [([x], s')] else []
      | [] => []
      end
  | AZ =>
      match s with
      | x :: s' => if az_match x then [([x], s')] else []
      | [] => []
      end
  | WordB => if at_boundary prev (head s) then [([], s)] else []
  | Seq r1 r2 =>
      flat_map
        (fun '(m1, s1) =>
           map (fun '(m2, s2) => (m1 ++ m2, s2))
               (run r2 (prev_after prev m1) s1))
        (run r1 prev s)
  | Alt r1 r2 => run r1 prev s ++ run r2 prev s
  end.

(** [Pattern.search] from a given position: the first position where the
    pattern matches, and there the first way it matches. *)
Fixpoint search_from `{Unicode} (r : regex) (prev : option char) (s : ustring)
  : option ustring :=
  match run r prev s with
  | (m, _) :: _ => Some m
  | [] =>
      match s with
      | [] => None
      | c :: s' => search_from r (Some c) s'
      end
  end.

(** [patt.search(text)], giving [m.group(0)] when there is a match. *)
Definition search `{Unicode} (r : regex) (text : ustring) : option ustring :=
  search_from r None text.

(** [re.escape(w)]: the pattern that matches [w] literally. *)
Fixpoint literal (w : ustring) : regex :=
  match w with
  | [] => Eps
  | c :: w' => Seq (Lit c) (literal w')
  end.

(** [r?], greedy. *)
Definition opt (r : regex) : regex := Alt r Eps.

End Re.

(* ===================================================================== *)
(** ** Pattern matcher: src/main.py, lines 49 and 77-107 *)
(* ===================================================================== *)

Import Text Re.

(** [rf"\b{re.escape(w)}\b"] *)
Definition bounded (w : ustring) : regex :=
  Seq WordB (Seq (literal w) WordB).

(** [re.escape(w)] *)
Definition plain (w : ustring) : regex := literal w.

(** [" " in w] *)
Definition has_space (w : ustring) : bool := str_in (codes " ") w.

(** The loop of [compile_patterns] appends one pattern for each word that is
    not empty once stripped, in the order of the words. *)
Fixpoint compile_patterns `{Unicode} (words : list ustring) : list regex :=
  match words with
  | [] => []
  | w :: words' =>
      let w := strip w in
      if empty w then compile_patterns words'
      else if has_space w then plain w :: compile_patterns words'
      else bounded w :: compile_patterns words'
  end.

(** The loop of [contains_banned]: the first pattern that matches decides,
    and [(False, "")] is the answer when none does. *)
Fixpoint first_hit `{Unicode} (text : ustring) (patterns : list regex) : bool * ustring :=
  match patterns with
  | [] => (false, [])
  | patt :: patterns' =>
      match search patt text with
      | Some m => (true, m)
      | None => first_hit text patterns'
      end
  end.

Definition contains_banned `{Unicode} (text : ustring) (patterns : list regex)
  : bool * ustring :=
  if empty text then (false, []) else first_hit text patterns.

(** [(https?://|t\.me/|telegram\.me/|\bwww\.|\.[a-z]{2,3}(?:/|\b))]; the
    characters 115, 46 and 47 are [s], [.] and [/]. *)
Definition LINK_REGEX : regex :=
  Alt (Seq (plain (codes "http")) (Seq (opt (Lit 115)) (plain (codes "://"))))
 (Alt (plain (codes "t.me/"))
 (Alt (plain (codes "telegram.me/"))
 (Alt (Seq WordB (plain (codes "www.")))
      (Seq (Lit 46)
      (Seq AZ (Seq AZ (Seq (opt AZ)
           (Alt (Lit 47) WordB)))))))).

(** The loop of [contains_link] over the allowlist: does some entry satisfy
    [domain.lower() in text.lower()]? *)
Fixpoint allowlisted `{Unicode} (text : ustring) (allowed : list ustring) : bool :=
  match allowed with
  | [] => false
  | domain :: allowed' =>
      if str_in (lower domain) (lower text) then true
      else allowlisted text allowed'
  end.

Definition contains_link `{Unicode} (text : ustring) (allowed : list ustring)
  : bool * ustring :=
  if empty text then (false, [])
  else
    match search LINK_REGEX text with
    | None => (false, [])
    | Some m => if allowlisted text allowed then (false, []) else (true, m)
    end.

(* ===================================================================== *)
(** ** Exceptions and the program monad *)
(* ===================================================================== *)

(** The exceptions the modelled code can meet; all of them are subclasses of
    [Exception], so an [except Exception] clause catches each of them. *)
Inductive exn : Type :=
| OSError
| UnicodeDecodeError
| JSONDecodeError
| KeyError
| AttributeError
| OverflowError
| ValidationError
| TelegramAPIError
| TelegramNetworkError.

Inductive outcome (A : Type) : Type :=
| Ret (a : A)
| Raise (e : exn).
Arguments Ret {A} a.
Arguments Raise {A} e.

(** ** Per-chat settings: src/main.py, lines 36-47 *)

(** A settings dictionary.  Each field holds the value stored under the key
    of the same name, [None] when the key is absent.  [L] is how a list of
    strings is held and [I] how a list of user identifiers is held: by
    reference in memory, by value in the JSON file. *)
Record Settings (L I : Type) : Type := mkSettings {
  banned_words : option L;
  allowed_links : option L;
  link_protection : option bool;
  action_words : option string;
  mute_seconds_words : option Z;
  action_links : option string;
  mute_seconds_links : option Z;
  enabled : option bool;
  mode : option string;
  bot_admins : option I
}.
Arguments mkSettings {L I}.
Arguments banned_words {L I} _.
Arguments allowed_links {L I} _.
Arguments link_protection {L I} _.
Arguments action_words {L I} _.
Arguments mute_seconds_words {L I} _.
Arguments action_links {L I} _.
Arguments mute_seconds_links {L I} _.
Arguments enabled {L I} _.
Arguments mode {L I} _.
Arguments bot_admins {L I} _.

(** The address of a list object: its index in the heap of its kind. *)
Abbreviation loc := nat.

(** Settings in memory: the lists are references to list objects. *)
Abbreviation ChatSettings := (Settings loc loc).

(** Settings in the JSON file: the lists are written out. *)
Abbreviation SettingsDoc := (Settings (list ustring) (list Z)).

(** [data.json]: absent; present but such that [open] or [json.load] raises
    [e]; or holding a JSON object. *)
Inductive file : Type :=
| Missing
| Broken (e : exn)
| Holds (doc : gmap string SettingsDoc).

(** Calls to the messaging platform. *)
Inductive call : Type :=
| GetChatMember (chat user : Z)
| DeleteMessage (chat message_id : Z)
| RestrictChatMember (chat user until_date : Z)
| BanChatMember (chat user : Z)
| SendMessage (chat : Z) (text : string)
| Reply (chat message_id : Z) (text : string) (keyboard : list (string * string))
| EditText (chat message_id : Z) (text : string) (keyboard : list (string * string))
| Answer (text : string).

(** What the process holds and has done: the list objects, the module-level
    dictionary [data], the file [data.json], how many times it was written,
    and the platform calls made so far. *)
Record state : Type := mkState {
  str_lists : list (list ustring);
  int_lists : list (list Z);
  data : gmap string ChatSettings;
  disk : file;
  writes : nat;
  sent : list call
}.

Definition M (A : Type) : Type := state -> outcome A * state.

#[global] Instance M_ret : MRet M := fun A a s => (Ret a, s).

#[global] Instance M_bind : MBind M := fun A B k m s =>
  match m s with
  | (Ret a, s') => k a s'
  | (Raise e, s') => (Raise e, s')
  end.

(** [try: body except Exception: handler] *)
Definition try_except {A : Type} (body : M A) (handler : exn -> M A) : M A :=
  fun s =>
    match body s with
    | (Ret a, s') => (Ret a, s')
    | (Raise e, s') => handler e s'
    end.

Definition lift {A : Type} (r : outcome A) : M A := fun s => (r, s).

(** The aiogram library and the Telegram servers, as the bot sees them.
    [is_chat_admin] is what [member.is_chat_admin()] gives;
    [get_chat_member] what [bot.get_chat_member] gives; [respond] what every
    other call to the platform gives; [build_markup] what building an
    [InlineKeyboardMarkup] out of buttons gives; [date_after s] what
    [datetime.utcnow() + timedelta(seconds=s)] gives, as a timestamp. *)
Record ChatMember : Type := { is_chat_admin : outcome bool }.

Record platform : Type := {
  get_chat_member : Z -> Z -> outcome ChatMember;
  respond : call -> outcome unit;
  build_markup : list (string * string) -> outcome (list (string * string));
  date_after : Z -> outcome Z
}.

(** A request to the platform: it is recorded, then answered. *)
Definition request {A : Type} (c : call) (answer : outcome A) : M A :=
  fun s =>
    (answer,
     mkState (str_lists s) (int_lists s) (data s) (disk s) (writes s)
             (sent s ++ [c])).

Definition api (pf : platform) (c : call) : M unit := request c (respond pf c).

(** [str(n)] for an integer *)
Definition str (n : Z) : string := NilZero.string_of_int (Z.to_int n).

(* ===================================================================== *)
(** ** Settings store: src/main.py, lines 29-74 *)
(* ===================================================================== *)

Definition OWNER_ID : Z := 7322925570.

(** [DEFAULTS].  Its three lists are the first list objects the module
    creates: string lists 0 and 1, identifier list 0. *)
Definition DEFAULTS : ChatSettings :=
  {| banned_words := Some 0%nat;
     allowed_links := Some 1%nat;
     link_protection := Some true;
     action_words := Some "mute";
     mute_seconds_words := Some 600;
     action_links := Some "mute";
     mute_seconds_links := Some 600;
     enabled := Some true;
     mode := Some "admins";
     bot_admins := Some 0%nat |}.

(** [d.copy()]: a new dictionary with the same values under the same keys.
    The values that are lists are not copied: the new dictionary refers to
    the same list objects. *)
Definition copy (d : ChatSettings) : ChatSettings :=
  mkSettings (banned_words d) (allowed_links d) (link_protection d)
             (action_words d) (mute_seconds_words d)
             (action_links d) (mute_seconds_links d)
             (enabled d) (mode d) (bot_admins d).

(** The list object at an address. *)
Definition deref {A : Type} (h : list (list A)) (p : loc) : list A :=
  default [] (h !! p).

(** What [json.dump] writes for a settings dictionary. *)
Definition deep (s : state) (d : ChatSettings) : SettingsDoc :=
  mkSettings (deref (str_lists s) <$> banned_words d)
             (deref (str_lists s) <$> allowed_links d)
             (link_protection d)
             (action_words d) (mute_seconds_words d)
             (action_links d) (mute_seconds_links d)
             (enabled d) (mode d)
             (deref (int_lists s) <$> bot_admins d).

Definition snapshot (s : state) : gmap string SettingsDoc := deep s <$> data s.

(** A new list object. *)
Definition alloc {A : Type} (o : option (list A)) (h : list (list A))
  : option loc * list (list A) :=
  match o with
  | Some l => (Some (length h), h ++ [l])
  | None => (None, h)
  end.

(** What [json.load] builds for one settings object: new list objects for
    its arrays. *)
Definition intern_settings (d : SettingsDoc) (s : state) : ChatSettings * state :=
  let '(bw, h1) := alloc (banned_words d) (str_lists s) in
  let '(al, h2) := alloc (allowed_links d) h1 in
  let '(ba, g1) := alloc (bot_admins d) (int_lists s) in
  (mkSettings bw al (link_protection d)
              (action_words d) (mute_seconds_words d)
              (action_links d) (mute_seconds_links d)
              (enabled d) (mode d) ba,
   mkState h2 g1 (data s) (disk s) (writes s) (sent s)).

Definition intern (doc : gmap string SettingsDoc) (s : state) : state :=
  foldr
    (fun '(chat_id, d) s =>
       let '(cs, s') := intern_settings d s in
       mkState (str_lists s') (int_lists s') (<[chat_id := cs]> (data s'))
               (disk s') (writes s') (sent s'))
    s (map_to_list doc).

(** [os.path.exists(DATA_FILE)] *)
Definition path_exists : M bool :=
  fun s =>
    (Ret match disk s with
         | Missing => false
         | _ => true
         end, s).

(** [with open(DATA_FILE) as f: return json.load(f)] *)
Definition read_json : M (gmap string SettingsDoc) :=
  fun s =>
    match disk s with
    | Missing => (Raise OSError, s)
    | Broken e => (Raise e, s)
    | Holds doc => (Ret doc, s)
    end.

Definition load_data : M (gmap string SettingsDoc) :=
  present ← path_exists;
  if negb present then mret ∅
  else try_except read_json (fun _ => mret ∅).

(** [save_data(data)]: the file is rewritten with the whole of [data].
    Writing is taken to succeed. *)
Definition save_data : M unit :=
  fun s =>
    (Ret tt,
     mkState (str_lists s) (int_lists s) (data s) (Holds (snapshot s))
             (S (writes s)) (sent s)).

(** [json.load] turning the parsed document into objects, as a step of the
    program. *)
Definition load_objects (doc : gmap string SettingsDoc) : M unit :=
  fun s => (Ret tt, intern doc s).

(** The module's top-level statements about the store: [data = load_data()].
    The process starts with the list objects of [DEFAULTS], all empty, and
    the file [f]. *)
Definition startup : M unit :=
  doc ← load_data;
  load_objects doc.

Definition boot (f : file) : state :=
  snd (startup (mkState [[]; []] [[]] ∅ f 0%nat [])).

(** [chat_id in data] *)
Definition has_chat (chat_id : string) : M bool :=
  fun s => (Ret (bool_decide (is_Some (data s !! chat_id))), s).

(** [data[chat_id] = d] *)
Definition set_chat (chat_id : string) (d : ChatSettings) : M unit :=
  fun s =>
    (Ret tt,
     mkState (str_lists s) (int_lists s) (<[chat_id := d]> (data s))
             (disk s) (writes s) (sent s)).

(** [data[chat_id]] *)
Definition get_chat (chat_id : string) : M ChatSettings :=
  fun s =>
    match data s !! chat_id with
    | Some d => (Ret d, s)
    | None => (Raise KeyError, s)
    end.

Definition ensure_chat_settings (chat_id : string) : M ChatSettings :=
  present ← has_chat chat_id;
  (if negb present
   then set_chat chat_id (copy DEFAULTS) ;; save_data
   else mret tt) ;;
  get_chat chat_id.

(** [settings.get(key, [])] for a key that holds a list of strings *)
Definition get_strs (o : option loc) : M (list ustring) :=
  fun s =>
    (Ret match o with
         | Some p => deref (str_lists s) p
         | None => []
         end, s).

(** [settings.get(key, [])] for a key that holds a list of identifiers *)
Definition get_ints (o : option loc) : M (list Z) :=
  fun s =>
    (Ret match o with
         | Some p => deref (int_lists s) p
         | None => []
         end, s).

(* ===================================================================== *)
(** ** Authorization: src/main.py, lines 109-120 *)
(* ===================================================================== *)

Definition is_user_admin (pf : platform) (chat_id user_id : Z) : M bool :=
  if Z.eqb user_id OWNER_ID then mret true
  else
    try_except
      (member ← request (GetChatMember chat_id user_id)
                        (get_chat_member pf chat_id user_id);
       lift (is_chat_admin member))
      (fun _ => mret false).

Definition is_bot_admin (chat_id : string) (user_id : Z) : M bool :=
  settings ← ensure_chat_settings chat_id;
  admins ← get_ints (bot_admins settings);
  mret (existsb (Z.eqb user_id) admins || Z.eqb user_id OWNER_ID)%bool.

(* ===================================================================== *)
(** ** Admin panel: src/main.py, lines 123-165 *)
(* ===================================================================== *)

(** An incoming message, with the attributes the handlers read. *)
Record Message : Type := {
  chat_type : string;            (* message.chat.type *)
  chat : Z;                      (* message.chat.id *)
  message_id : Z;
  from_user : Z;                 (* message.from_user.id *)
  username : option string;      (* message.from_user.username *)
  full_name : string;            (* message.from_user.full_name *)
  msg_text : option ustring;         (* message.text *)
  msg_caption : option ustring       (* message.caption *)
}.

(** A button press, with the attributes the handlers read. *)
Record CallbackQuery : Type := {
  q_chat : Z;                    (* query.message.chat.id *)
  q_message_id : Z;              (* query.message.message_id *)
  q_from : Z                     (* query.from_user.id *)
}.

(** The buttons of lines 126-131, each with its label and its callback
    data. *)
Definition admin_panel_buttons : list (string * string) :=
  [ ("✅ Вкл/Выкл", "toggle_enabled");
    ("⚙️ Режим", "toggle_mode");
    ("🔨 Наказания", "set_actions");
    ("📝 Запрещённые слова", "edit_words");
    ("🔗 Белый список ссылок", "edit_links");
    ("👑 Управление админами", "manage_admins") ].

(** [admin_panel_keyboard()]: the markup is built by the constructors of the
    library, [InlineKeyboardMarkup(row_width=2)] and [kb.add]; what they
    give, the markup or an exception, is [build_markup]. *)
Definition admin_panel_keyboard (pf : platform) : M (list (string * string)) :=
  lift (build_markup pf admin_panel_buttons).

Definition rejection : string :=
  "**Только Owner и бот-админы могут открывать панель**".

Definition show_admin_panel (pf : platform) (message : Message) : M unit :=
  let chat_id := str (chat message) in
  allowed ← is_bot_admin chat_id (from_user message);
  if negb allowed
  then api pf (Reply (chat message) (message_id message) rejection [])
  else
    keyboard ← admin_panel_keyboard pf;
    api pf (Reply (chat message) (message_id message)
                  "**Админ-панель:**" keyboard).

(** [settings[key] = value], where [settings] is the dictionary held in
    [data[chat_id]]. *)
Definition assign (chat_id : string) (set : ChatSettings -> ChatSettings) : M unit :=
  fun s =>
    (Ret tt,
     mkState (str_lists s) (int_lists s) (alter set chat_id (data s))
             (disk s) (writes s) (sent s)).

Definition with_enabled (v : bool) (d : ChatSettings) : ChatSettings :=
  mkSettings (banned_words d) (allowed_links d) (link_protection d)
             (action_words d) (mute_seconds_words d)
             (action_links d) (mute_seconds_links d)
             (Some v) (mode d) (bot_admins d).

Definition with_mode (v : string) (d : ChatSettings) : ChatSettings :=
  mkSettings (banned_words d) (allowed_links d) (link_protection d)
             (action_words d) (mute_seconds_words d)
             (action_links d) (mute_seconds_links d)
             (enabled d) (Some v) (bot_admins d).

Definition callback_toggle_enabled (pf : platform) (query : CallbackQuery) : M unit :=
  let chat_id := str (q_chat query) in
  settings ← ensure_chat_settings chat_id;
  allowed ← is_bot_admin chat_id (q_from query);
  if negb allowed then api pf (Answer "Нет прав")
  else
    let new := negb (default true (enabled settings)) in
    assign chat_id (with_enabled new) ;;
    save_data ;;
    let status := if new then "✅ Включён" else "⛔ Выключен" in
    keyboard ← admin_panel_keyboard pf;
    api pf (EditText (q_chat query) (q_message_id query)
                     ("**Бот " +:+ status +:+ "**") keyboard) ;;
    api pf (Answer "").

Definition callback_toggle_mode (pf : platform) (query : CallbackQuery) : M unit :=
  let chat_id := str (q_chat query) in
  settings ← ensure_chat_settings chat_id;
  allowed ← is_bot_admin chat_id (q_from query);
  if negb allowed then api pf (Answer "Нет прав")
  else
    let new :=
      if String.eqb (default "admins" (mode settings)) "admins"
      then "all" else "admins" in
    assign chat_id (with_mode new) ;;
    save_data ;;
    let mode_text :=
      if String.eqb new "all" then "Все" else "Только пользователи" in
    keyboard ← admin_panel_keyboard pf;
    api pf (EditText (q_chat query) (q_message_id query)
                     ("**Режим изменён: " +:+ mode_text +:+ "**")
                     keyboard) ;;
    api pf (Answer "").

(* ===================================================================== *)
(** ** Moderation of messages: src/main.py, lines 168-230 *)
(* ===================================================================== *)

Definition newline : string := String (ascii_of_nat 10) "".

(** [x or y] on an optional string: [x] when it is there and not empty. *)
Definition or_else (x : option ustring) (y : ustring) : ustring :=
  match x with
  | Some t => if empty t then y else t
  | None => y
  end.

(** [message.text or message.caption or ""] *)
Definition message_text (message : Message) : ustring :=
  or_else (msg_text message) (or_else (msg_caption message) []).

(** Lines 184-188: what the two checks find in the text. *)
Definition violations `{Unicode} (settings : ChatSettings) (text : ustring)
  : M (bool * bool) :=
  words ← get_strs (banned_words settings);
  let patterns := compile_patterns words in
  let is_banned := fst (contains_banned text patterns) in
  found_link ←
    (if default true (link_protection settings)
     then allowed ← get_strs (allowed_links settings);
          mret (fst (contains_link text allowed))
     else mret false);
  mret (is_banned, found_link).

(** Line 198. *)
Definition display_name (message : Message) : string :=
  match username message with
  | Some u => if String.eqb u "" then full_name message else "@" +:+ u
  | None => full_name message
  end.

(** Lines 201-210: the action, the mute duration and the reason, or [None]
    for the [return] of the last branch. *)
Definition select_action (settings : ChatSettings) (is_banned found_link : bool)
  : option (string * Z * string) :=
  if is_banned then
    Some (default "mute" (action_words settings),
          default 600 (mute_seconds_words settings),
          "запрещённое слово")
  else if found_link then
    Some (default "mute" (action_links settings),
          default 600 (mute_seconds_links settings),
          "ссылку")
  else None.

(** Lines 212-213. *)
Definition minutes_text (mute_seconds : Z) : string :=
  let minutes := mute_seconds / 60 in
  if Z.leb 1 minutes then str minutes +:+ " минут"
  else str mute_seconds +:+ " секунд".

Definition notice (name reason what : string) : string :=
  "🚫 **Пользователь " +:+ name +:+ " написал " +:+ reason +:+ " и " +:+ what
  +:+ ".**" +:+ newline +:+ "**Пожалуйста, соблюдайте правила чата!**".

(** Lines 212-230: the action is carried out.  The date of line 218 is
    computed outside the [try]: when it raises, nothing of the branch is
    done. *)
Definition punish (pf : platform) (message : Message)
           (name action : string) (mute_seconds : Z) (reason : string) : M unit :=
  if String.eqb action "warn" then
    api pf (SendMessage (chat message)
              (notice name reason "получил предупреждение"))
  else if String.eqb action "mute" then
    until_date ← lift (date_after pf mute_seconds);
    try_except
      (api pf (RestrictChatMember (chat message) (from_user message) until_date))
      (fun _ => mret tt) ;;
    api pf (SendMessage (chat message)
              (notice name reason ("получил мут на " +:+ minutes_text mute_seconds)))
  else if String.eqb action "ban" then
    try_except
      (api pf (BanChatMember (chat message) (from_user message)))
      (fun _ => mret tt) ;;
    api pf (SendMessage (chat message)
              (notice name reason "был заблокирован"))
  else mret tt.

(** Lines 193-196. *)
Definition delete_offending (pf : platform) (message : Message) : M unit :=
  try_except
    (api pf (DeleteMessage (chat message) (message_id message)))
    (fun _ => mret tt).

(** Lines 183-230: the message is checked against the settings and dealt
    with. *)
Definition moderate `{Unicode} (pf : platform) (message : Message)
           (settings : ChatSettings) : M unit :=
  let text := message_text message in
  '(is_banned, found_link) ← violations settings text;
  if (negb is_banned && negb found_link)%bool then mret tt
  else
    delete_offending pf message ;;
    let name := display_name message in
    match select_action settings is_banned found_link with
    | Some (action, mute_seconds, reason) =>
        punish pf message name action mute_seconds reason
    | None => mret tt
    end.

Definition in_group (message : Message) : bool :=
  (String.eqb (chat_type message) "group"
   || String.eqb (chat_type message) "supergroup")%bool.

Definition mod_message `{Unicode} (pf : platform) (message : Message) : M unit :=
  if negb (in_group message) then mret tt
  else
    let chat_id := str (chat message) in
    settings ← ensure_chat_settings chat_id;
    if negb (default true (enabled settings)) then mret tt
    else
      exempt ←
        (if String.eqb (default "admins" (mode settings)) "admins"
         then is_user_admin pf (chat message) (from_user message)
         else mret false);
      if exempt : bool then mret tt
      else moderate pf message settings.

(* ===================================================================== *)
(** ** The running bot *)
(* ===================================================================== *)

(** An update the dispatcher hands to a handler. *)
Inductive update : Type :=
| AdminCommand (message : Message)
| ToggleEnabled (query : CallbackQuery)
| ToggleMode (query : CallbackQuery)
| Incoming (message : Message).

Definition handle `{Unicode} (pf : platform) (u : update) : M unit :=
  match u with
  | AdminCommand message => show_admin_panel pf message
  | ToggleEnabled query => callback_toggle_enabled pf query
  | ToggleMode query => callback_toggle_mode pf query
  | Incoming message => mod_message pf message
  end.

(** The states the process goes through: it starts over some file, then
    handles one update after another. *)
Inductive reachable `{Unicode} : state -> Prop :=
| reach_boot (f : file) : reachable (boot f)
| reach_handle (pf : platform) (u : update) (s : state) :
    reachable s -> reachable (snd (handle pf u s)).

(* ===================================================================== *)
(** ** Vocabulary of the properties *)
(* ===================================================================== *)

(** The piece [m] of a text is the word [w] up to case, as a pattern
    compiled with [re.IGNORECASE] sees it: character by character, the
    character of [w] matches that of [m]. *)
Fixpoint ci_equalb `{Unicode} (m w : ustring) : bool :=
  match m, w with
  | [], [] => true
  | x :: m', c :: w' => ci_match c x && ci_equalb m' w'
  | _, _ => false
  end.

Definition ci_equal `{Unicode} (m w : ustring) : Prop := ci_equalb m w = true.

(** [occ] is an occurrence of the word [w] in [text], with [pre] before it
    and [post] after it. *)
Definition occurrence `{Unicode} (w text pre occ post : ustring) : Prop :=
  text = pre ++ occ ++ post /\ ci_equal occ w.

(** The word stands alone somewhere in the text: an occurrence that no word
    character touches, on either side. *)
Definition occurs_standalone `{Unicode} (w text : ustring) : Prop :=
  exists pre occ post,
    occurrence w text pre occ post /\
    word_opt (last pre) = false /\ word_opt (head post) = false.

(** Every occurrence of the word in the text lies inside a longer token: a
    word character touches it on at least one side. *)
Definition occurs_only_embedded `{Unicode} (w text : ustring) : Prop :=
  forall pre occ post,
    occurrence w text pre occ post ->
    word_opt (last pre) = true \/ word_opt (head post) = true.

(** The word has no whitespace in it. *)
Definition no_whitespace `{Unicode} (w : ustring) : bool :=
  forallb (fun c => negb (is_space c)) w.

(** The word begins and ends with a word character, in whatever case it is
    written: every character that its first character matches, and every
    character that its last character matches, is a word character. *)
Definition word_edged `{Unicode} (w : ustring) : Prop :=
  exists first final,
    head w = Some first /\ last w = Some final /\
    (forall x, ci_match first x = true -> is_word_char x = true) /\
    (forall x, ci_match final x = true -> is_word_char x = true).

(** The allowlist entry [d] occurs in the text, case set aside:
    [d.lower()] is a piece of [text.lower()]. *)
Definition ci_substring `{Unicode} (d text : ustring) : Prop :=
  exists pre post, lower text = pre ++ lower d ++ post.

(** The state [s] with [f] for [data.json]. *)
Definition with_disk (f : file) (s : state) : state :=
  mkState (str_lists s) (int_lists s) (data s) f (writes s) (sent s).

(** The state [s] after one more platform call. *)
Definition logged (c : call) (s : state) : state :=
  mkState (str_lists s) (int_lists s) (data s) (disk s) (writes s)
          (sent s ++ [c]).

(** What the defaults look like when written out. *)
Definition DEFAULTS_doc : SettingsDoc :=
  mkSettings (Some []) (Some []) (Some true)
             (Some "mute") (Some 600) (Some "mute") (Some 600)
             (Some true) (Some "admins") (Some []).

(** The list objects of [DEFAULTS] are still empty. *)
Definition pristine (s : state) : Prop :=
  str_lists s !! 0%nat = Some [] /\
  str_lists s !! 1%nat = Some [] /\
  int_lists s !! 0%nat = Some [].

(** The bot-admin list that [is_bot_admin] consults for a chat: that of the
    chat's settings, or that of the defaults when the chat has none yet. *)
Definition chat_bot_admins (s : state) (chat_id : string) : list Z :=
  match bot_admins (default (copy DEFAULTS) (data s !! chat_id)) with
  | Some p => deref (int_lists s) p
  | None => []
  end.

(** The lists of strings that the settings refer to. *)
Definition strs_at (s : state) (o : option loc) : list ustring :=
  match o with
  | Some p => deref (str_lists s) p
  | None => []
  end.

(** The state after the first reference to a chat: the chat has a copy of
    the defaults and the file has been rewritten. *)
Definition after_first_reference (chat_id : string) (s : state) : state :=
  let d := <[chat_id := copy DEFAULTS]> (data s) in
  mkState (str_lists s) (int_lists s) d
          (Holds (deep s <$> d)) (S (writes s)) (sent s).

(** The computation leaves every list object as it is. *)
Definition keeps_lists {A : Type} (m : M A) : Prop :=
  forall s,
    str_lists (snd (m s)) = str_lists s /\ int_lists (snd (m s)) = int_lists s.


(** The word occurs somewhere in the text, case set aside. *)
Definition occurs `{Unicode} (w text : ustring) : Prop :=
  exists pre occ post, occurrence w text pre occ post.

(** The word is made of whitespace only. *)
Definition blank `{Unicode} (w : ustring) : bool := forallb is_space w.


(** Every list the settings refer to exists. *)
Definition closed (s : state) (d : ChatSettings) : Prop :=
  (forall p, banned_words d = Some p -> (p < length (str_lists s))%nat) /\
  (forall p, allowed_links d = Some p -> (p < length (str_lists s))%nat) /\
  (forall p, bot_admins d = Some p -> (p < length (int_lists s))%nat).

(** [s'] has the list objects of [s], unchanged, and maybe more. *)
Definition extends (s s' : state) : Prop :=
  exists e1 e2,
    str_lists s' = str_lists s ++ e1 /\ int_lists s' = int_lists s ++ e2.

(** The file mirrors the memory: it holds what [data] holds, or there is
    nothing in [data] and the file holds no document. *)
Definition synced (s : state) : Prop :=
  disk s = Holds (snapshot s) \/
  (data s = ∅ /\ forall doc, disk s <> Holds doc).

(** The computation leaves the file mirroring the memory if it found it so. *)
Definition keeps_sync {A : Type} (m : M A) : Prop :=
  forall s, synced s -> synced (snd (m s)).

(** The settings that [ensure_chat_settings] hands out for a chat: those
    the chat has, or a copy of the defaults. *)
Definition settings_of (s : state) (chat_id : string) : ChatSettings :=
  default (copy DEFAULTS) (data s !! chat_id).

(** The user passes [is_bot_admin] in the chat. *)
Definition authorised (s : state) (chat_id : string) (user_id : Z) : bool :=
  (existsb (Z.eqb user_id) (chat_bot_admins s chat_id)
   || Z.eqb user_id OWNER_ID)%bool.

(** [settings.get("enabled", True)] and [settings.get("mode", "admins")] for
    the chat. *)
Definition is_enabled (s : state) (chat_id : string) : bool :=
  default true (enabled (settings_of s chat_id)).

Definition current_mode (s : state) (chat_id : string) : string :=
  default "admins" (mode (settings_of s chat_id)).

(** The chat an update comes from. *)
Definition update_chat (u : update) : Z :=
  match u with
  | AdminCommand message => chat message
  | ToggleEnabled query => q_chat query
  | ToggleMode query => q_chat query
  | Incoming message => chat message
  end.

(** The computation changes no entry of [data] other than that of the chat. *)
Definition touches_only {A : Type} (chat_id : string) (m : M A) : Prop :=
  forall s k, k <> chat_id -> data (snd (m s)) !! k = data s !! k.

(** The computation changes nothing but the record of the calls made. *)
Definition only_calls {A : Type} (m : M A) : Prop :=
  forall s,
    str_lists (snd (m s)) = str_lists s /\
    int_lists (snd (m s)) = int_lists s /\
    data (snd (m s)) = data s /\
    disk (snd (m s)) = disk s /\
    writes (snd (m s)) = writes s.

(** The platform says that the user is an admin of the chat. *)
Definition platform_admin (pf : platform) (chat_id user_id : Z) : Prop :=
  exists member,
    get_chat_member pf chat_id user_id = Ret member /\
    is_chat_admin member = Ret true.

(** The calls that carry out an action, [until_date] being what the date of
    line 218 gives. *)
Definition punish_calls (message : Message) (name action : string)
           (until_date : outcome Z) (mute_seconds : Z) (reason : string)
  : list call :=
  if String.eqb action "warn" then
    [SendMessage (chat message) (notice name reason "получил предупреждение")]
  else if String.eqb action "mute" then
    match until_date with
    | Ret date =>
        [RestrictChatMember (chat message) (from_user message) date;
         SendMessage (chat message)
           (notice name reason ("получил мут на " +:+ minutes_text mute_seconds))]
    | Raise _ => []
    end
  else if String.eqb action "ban" then
    [BanChatMember (chat message) (from_user message);
     SendMessage (chat message) (notice name reason "был заблокирован")]
  else [].

(** What the two checks of [mod_message] find in a text, under the
    settings: a banned word, and a link when link protection is on. *)
Definition findings `{Unicode} (s : state) (settings : ChatSettings)
           (text : ustring) : bool * bool :=
  (fst (contains_banned text
          (compile_patterns (strs_at s (banned_words settings)))),
   if default true (link_protection settings)
   then fst (contains_link text (strs_at s (allowed_links settings)))
   else false).

(* ===================================================================== *)
(** ** Sample inputs *)
(* ===================================================================== *)

(** The characters of a literal written in UTF-8 with sequences of one or
    two bytes, which is enough for Latin and Cyrillic text. *)
Fixpoint utf8 (bytes : list N) : ustring :=
  match bytes with
  | [] => []
  | b :: rest =>
      if N.ltb b 128 then b :: utf8 rest
      else
        match rest with
        | [] => [b]
        | b2 :: rest' => ((b - 192) * 64 + (b2 - 128))%N :: utf8 rest'
        end
  end.

Definition u (s : string) : ustring := utf8 (codes s).

Definition between (lo hi n : N) : bool := (N.leb lo n && N.leb n hi)%bool.

(** The lower-case form of a character of the blocks Basic Latin (U+0000 to
    U+007F) and Cyrillic (U+0400 to U+045F). *)
Definition lower1 (x : char) : char :=
  if between 65 90 x then (x + 32)%N
  else if between 1040 1071 x then (x + 32)%N
  else if between 1024 1039 x then (x + 80)%N
  else x.

(** Tables for running examples.  They are those of Python on the blocks
    Basic Latin and Cyrillic, for texts and patterns written in these
    blocks; the other characters are taken as symbols without case, which
    is not what Python takes all of them for.  The theorems are stated for
    all tables; these serve the examples only. *)
Definition tables : Unicode :=
  {| is_word_char x :=
       (between 48 57 x || between 65 90 x || between 97 122 x || N.eqb x 95
        || between 1024 1119 x)%bool;
     is_space x := (between 9 13 x || between 28 32 x)%bool;
     ci_match c x := N.eqb (lower1 c) (lower1 x);
     az_match x := between 97 122 (lower1 x);
     lower := map lower1;
     lower_empty := eq_refl;
     is_space_space := eq_refl |}.

(** A clock for the examples: it is 4 November 2025, 00:00 UTC, and a
    [datetime] holds the years 1 to 9999. *)
Definition sample_date (seconds : Z) : outcome Z :=
  let date := 1762214400 + seconds in
  if (Z.leb (-62135596800) date && Z.leb date 253402300799)%bool
  then Ret date
  else Raise OverflowError.

(** A platform on which every call succeeds; as with the aiogram 3 that the
    module imports, reading a member's role and building the keyboard
    raise. *)
Definition quiet_platform : platform :=
  {| get_chat_member := fun _ _ => Ret {| is_chat_admin := Raise AttributeError |};
     respond := fun _ => Ret tt;
     build_markup := fun _ => Raise ValidationError;
     date_after := sample_date |}.

(** A platform whose membership query fails. *)
Definition failing_platform : platform :=
  {| get_chat_member := fun _ _ => Raise TelegramNetworkError;
     respond := fun _ => Ret tt;
     build_markup := fun _ => Raise ValidationError;
     date_after := sample_date |}.

(** A platform that refuses every call but the sending of a message. *)
Definition dead_platform : platform :=
  {| get_chat_member := fun _ _ => Raise TelegramNetworkError;
     respond := fun c =>
       match c with
       | SendMessage _ _ => Ret tt
       | _ => Raise TelegramAPIError
       end;
     build_markup := fun _ => Raise ValidationError;
     date_after := sample_date |}.

(** A platform of a library that builds keyboards, as aiogram 2 does. *)
Definition keyboard_platform : platform :=
  {| get_chat_member := fun _ _ => Ret {| is_chat_admin := Raise AttributeError |};
     respond := fun _ => Ret tt;
     build_markup := fun buttons => Ret buttons;
     date_after := sample_date |}.

Definition sample_message (text : string) : Message :=
  {| chat_type := "supergroup";
     chat := -1001;
     message_id := 7;
     from_user := 5;
     username := Some "bob";
     full_name := "Bob";
     msg_text := Some (u text);
     msg_caption := None |}.


(** A photo sent to the sample group by the owner, with a caption. *)
Definition owner_message (caption : string) : Message :=
  {| chat_type := "group";
     chat := -1001;
     message_id := 7;
     from_user := OWNER_ID;
     username := None;
     full_name := "Owner";
     msg_text := None;
     msg_caption := Some (u caption) |}.

(** The command sent to the bot in a private chat by the owner. *)
Definition owner_command : Message :=
  {| chat_type := "private";
     chat := 42;
     message_id := 1;
     from_user := OWNER_ID;
     username := None;
     full_name := "Owner";
     msg_text := Some (u "/admin");
     msg_caption := None |}.

(** A file with one chat: "spam" is banned there, words are punished by a
    ban and links by a warning. *)
Definition sample_doc : gmap string SettingsDoc :=
  {[ "-1001" :=
       mkSettings (Some [u "spam"]) (Some [u "example.org"]) (Some true)
                  (Some "ban") (Some 600) (Some "warn") (Some 30)
                  (Some true) (Some "all") (Some []) ]}.

Definition sample_settings : ChatSettings :=
  mkSettings (Some 2%nat) (Some 3%nat) (Some true)
             (Some "ban") (Some 600) (Some "warn") (Some 30)
             (Some true) (Some "all") (Some 1%nat).

(** The settings of a chat in which everything is as in the defaults, but
    for the mute, which lasts 10^12 seconds, and the mode, which is "all". *)
Definition endless_mute_settings : ChatSettings :=
  mkSettings (Some 0%nat) (Some 1%nat) (Some true)
             (Some "mute") (Some 1000000000000) (Some "mute") (Some 1000000000000)
             (Some true) (Some "all") (Some 0%nat).

(* ===================================================================== *)
(** * Properties *)
(* ===================================================================== *)

(** ** The model on small inputs, with the tables for examples *)

Example strip_example : @strip tables (u "  bad word ") = u "bad word".
Proof. reflexivity. Qed.

Example lower_example : @lower tables (u "T.Me/Сайт_42") = u "t.me/сайт_42".
Proof. reflexivity. Qed.

Example ban_alone :
  @contains_banned tables (u "I will BAN you") (@compile_patterns tables [u "ban"])
  = (true, u "BAN").
Proof. reflexivity. Qed.

Example ban_in_urban :
  @contains_banned tables (u "an urban area") (@compile_patterns tables [u "ban"])
  = (false, []).
Proof. reflexivity. Qed.

Example ban_between_cyrillic_letters :
  @contains_banned tables (u "яbanя") (@compile_patterns tables [u "ban"])
  = (false, []).
Proof. reflexivity. Qed.

Example cyrillic_word_in_capitals :
  @contains_banned tables (u "это СПАМ") (@compile_patterns tables [u "спам"])
  = (true, u "СПАМ").
Proof. reflexivity. Qed.

Example phrase_anywhere :
  @contains_banned tables (u "xПЛОХОЕ  СЛОВОy")
                   (@compile_patterns tables [u " плохое  слово "])
  = (true, u "ПЛОХОЕ  СЛОВО").
Proof. reflexivity. Qed.

Example first_pattern_wins :
  @contains_banned tables (u "two one")
                   (@compile_patterns tables [u "one"; u ""; u "two"])
  = (true, u "one").
Proof. reflexivity. Qed.

Example symbol_inside_token :
  @contains_banned tables (u "a+b") (@compile_patterns tables [u "+"]) = (true, u "+").
Proof. reflexivity. Qed.

Example link_https :
  @contains_link tables (u "see https://example.com now") [] = (true, u "https://").
Proof. reflexivity. Qed.

Example link_tme : @contains_link tables (u "join t.me/channel") [] = (true, u "t.me/").
Proof. reflexivity. Qed.

Example link_www : @contains_link tables (u "at WWW.example.org") [] = (true, u "WWW.").
Proof. reflexivity. Qed.

Example link_bare : @contains_link tables (u "try example.co today") [] = (true, u ".co").
Proof. reflexivity. Qed.

Example link_long_suffix : @contains_link tables (u "open file.json/x") [] = (false, []).
Proof. reflexivity. Qed.

Example suffix_before_cyrillic_letter :
  @contains_link tables (u "файл.txtя") [] = (false, []).
Proof. reflexivity. Qed.

Example no_link : @contains_link tables (u "plain prose, nothing else.") [] = (false, []).
Proof. reflexivity. Qed.

Example allowlist_entry_in_cyrillic :
  @contains_link tables (u "САЙТ https://x.io") [u "сайт"] = (false, []).
Proof. reflexivity. Qed.

Example duration_negative : minutes_text (-5) = "-5 секунд".
Proof. reflexivity. Qed.

(** ** Words and their occurrences *)

Lemma ci_equal_head `{Unicode} (m w : ustring) (c : char) :
  ci_equal m w -> head w = Some c ->
  exists x, head m = Some x /\ ci_match c x = true.
Proof.
  unfold ci_equal. destruct m as [|x m], w as [|c0 w]; cbn; try discriminate.
  intros Hm E. injection E as ->. apply andb_true_iff in Hm as [Hm _]. eauto.
Qed.

Lemma ci_equal_last `{Unicode} (m : ustring) :
  forall (w : ustring) (c : char),
    ci_equal m w -> last w = Some c ->
    exists x, last m = Some x /\ ci_match c x = true.
Proof.
  unfold ci_equal.
  induction m as [|x m IH]; intros [|c0 w] c Hm E; try discriminate.
  cbn [ci_equalb] in Hm. apply andb_true_iff in Hm as [Hx Ht].
  destruct m as [|x' m], w as [|c' w]; try discriminate Ht.
  - cbn in E. injection E as ->. exists x. now split.
  - change (last (x :: x' :: m)) with (last (x' :: m)).
    change (last (c0 :: c' :: w)) with (last (c' :: w)) in E.
    now apply (IH (c' :: w)).
Qed.

Lemma ci_equal_edges `{Unicode} (m w : ustring) :
  ci_equal m w -> word_edged w ->
  m <> [] /\ word_opt (head m) = true /\ word_opt (last m) = true.
Proof.
  intros Hci (first & final & Hh & Hl & Hf & Hz).
  destruct (ci_equal_head _ _ _ Hci Hh) as (x & Ex & Hx).
  destruct (ci_equal_last _ _ _ Hci Hl) as (z & Ez & Hzz).
  split; [intros ->; discriminate Ex|].
  rewrite Ex, Ez. cbn. split; auto.
Qed.

Lemma ci_equal_nil `{Unicode} (w : ustring) : ci_equal [] w -> w = [].
Proof. unfold ci_equal. destruct w; [reflexivity|discriminate]. Qed.


Lemma empty_false (s : ustring) : s <> [] -> empty s = false.
Proof. destruct s; [contradiction|reflexivity]. Qed.

Lemma empty_true (s : ustring) : empty s = true -> s = [].
Proof. destruct s; [reflexivity|discriminate]. Qed.

(** ** The engine *)


Lemma run_literal `{Unicode} (w : ustring) :
  forall prev s m rest,
    In (m, rest) (run (literal w) prev s) <-> s = m ++ rest /\ ci_equal m w.
Proof.
  unfold ci_equal.
  induction w as [|c w IH]; intros prev s m rest; simpl.
  - split.
    + intros [E|[]]. inversion E; subst. now split.
    + intros [-> E]. destruct m; [now left | discriminate].
  - rewrite in_flat_map. split.
    + intros [[m1 s1] [H1 H2]].
      apply in_map_iff in H2 as [[m2 s2] [E H2]]. inversion E; subst.
      apply IH in H2 as [-> H2].
      destruct s as [|x s]; [destruct H1|].
      destruct (ci_match c x) eqn:Hc; [|destruct H1].
      destruct H1 as [H1|[]]. inversion H1; subst.
      simpl. split; [reflexivity|]. now rewrite Hc, H2.
    + intros [-> E]. destruct m as [|x m]; [discriminate|].
      cbn [ci_equalb] in E. apply andb_true_iff in E as [Hx Hm].
      exists ([x], m ++ rest). split.
      * simpl. rewrite Hx. now left.
      * apply in_map_iff. exists (m, rest). split; [reflexivity|].
        apply IH. now split.
Qed.

Lemma run_bounded `{Unicode} (w : ustring) (prev : option char) (s m rest : ustring) :
  In (m, rest) (run (bounded w) prev s) <->
  s = m ++ rest /\ ci_equal m w /\
  at_boundary prev (head s) = true /\
  at_boundary (prev_after prev m) (head rest) = true.
Proof.
  unfold bounded. cbn [run]. rewrite in_flat_map. split.
  - intros [[m1 s1] [H1 H2]].
    destruct (at_boundary prev (head s)) eqn:Hb; [|destruct H1].
    destruct H1 as [H1|[]]. inversion H1; subst. clear H1.
    apply in_map_iff in H2 as [[m2 s2] [E H2]]. inversion E; subst. clear E.
    apply in_flat_map in H2 as [[m3 s3] [H3 H4]].
    apply in_map_iff in H4 as [[m4 s4] [E H4]]. inversion E; subst. clear E.
    apply run_literal in H3 as [-> H3].
    cbn [prev_after last] in H4.
    destruct (at_boundary (prev_after prev m3) (head s3)) eqn:Hb2; [|destruct H4].
    destruct H4 as [H4|[]]. inversion H4; subst.
    rewrite app_nil_r. simpl. auto.
  - intros (-> & Hci & Hb & Hb2).
    exists ([], m ++ rest). rewrite Hb. split; [now left|].
    apply in_map_iff. exists (m, rest). split; [reflexivity|].
    apply in_flat_map. exists (m, rest). split.
    + apply run_literal. now split.
    + apply in_map_iff. exists ([], rest). rewrite app_nil_r. split; [reflexivity|].
      cbn [prev_after last]. rewrite Hb2. now left.
Qed.

Lemma prev_after_app (prev : option char) (a b : ustring) :
  prev_after (prev_after prev a) b = prev_after prev (a ++ b).
Proof.
  unfold prev_after. rewrite last_app.
  destruct (last b); [reflexivity|]. reflexivity.
Qed.

Lemma prev_after_None (pre : ustring) : prev_after None pre = last pre.
Proof. unfold prev_after. now destruct (last pre). Qed.

(** A match at some position makes the search succeed. *)
Lemma search_from_hit `{Unicode} (r : regex) (pre : ustring) :
  forall prev s,
    run r (prev_after prev pre) s <> [] ->
    is_Some (search_from r prev (pre ++ s)).
Proof.
  induction pre as [|c pre IH]; intros prev s E; simpl.
  - cbn in E. destruct s; simpl; destruct (run r prev _) as [|[m ?] ?]; eauto;
      contradiction.
  - destruct (run r prev (c :: pre ++ s)) as [|[m ?] ?]; [|eauto].
    apply IH. replace (prev_after (Some c) pre) with (prev_after prev (c :: pre)); [exact E|].
    change (c :: pre) with ([c] ++ pre). rewrite <- prev_after_app. reflexivity.
Qed.

(** A successful search found its match somewhere. *)
Lemma search_from_found `{Unicode} (r : regex) :
  forall s prev m,
    search_from r prev s = Some m ->
    exists pre s' rest,
      s = pre ++ s' /\ In (m, rest) (run r (prev_after prev pre) s').
Proof.
  induction s as [|c s IH]; intros prev m; simpl.
  - destruct (run r prev []) as [|[m0 rest] l] eqn:E; [discriminate|].
    intros E0; inversion E0; subst.
    exists [], [], rest. split; [reflexivity|]. cbn. rewrite E. now left.
  - destruct (run r prev (c :: s)) as [|[m0 rest] l] eqn:E.
    + intros E0. apply IH in E0 as (pre & s' & rest & -> & E0).
      exists (c :: pre), s', rest. split; [reflexivity|].
      change (c :: pre) with ([c] ++ pre). now rewrite <- prev_after_app.
    + intros E0; inversion E0; subst.
      exists [], (c :: s), rest. split; [reflexivity|]. cbn. rewrite E. now left.
Qed.

(** ** Banned words *)

Lemma occurs_in_space `{Unicode} (l : ustring) :
  forallb (fun c => negb (is_space c)) l = true -> occurs_in (codes " ") l = false.
Proof.
  change (codes " ") with [32%N].
  induction l as [|c l IH]; [reflexivity|].
  cbn [forallb occurs_in starts_with].
  intros E. apply andb_true_iff in E as [Hc Hl]. rewrite (IH Hl).
  destruct (N.eqb_spec 32 c) as [<-|_]; [|reflexivity].
  rewrite is_space_space in Hc. discriminate Hc.
Qed.

Lemma no_whitespace_has_space `{Unicode} (w : ustring) :
  no_whitespace w = true -> has_space w = false.
Proof. apply occurs_in_space. Qed.

Lemma word_edged_nonempty `{Unicode} (w : ustring) : word_edged w -> w <> [].
Proof. intros (first & _ & Hh & _) ->. discriminate Hh. Qed.

Lemma compile_patterns_bounded `{Unicode} (w : ustring) (words : list ustring) :
  In w words -> strip w <> [] -> has_space (strip w) = false ->
  In (bounded (strip w)) (compile_patterns words).
Proof.
  intros Hin Hne Hsp.
  induction words as [|w0 words IH]; [destruct Hin|].
  cbn [compile_patterns].
  destruct Hin as [->|Hin].
  - rewrite (empty_false _ Hne), Hsp. now left.
  - destruct (empty (strip w0)); [now apply IH|].
    destruct (has_space (strip w0)); right; now apply IH.
Qed.

Lemma first_hit_true `{Unicode} (text : ustring) (patt : regex) (patterns : list regex) :
  In patt patterns -> is_Some (search patt text) ->
  fst (first_hit text patterns) = true.
Proof.
  intros Hin Hs.
  induction patterns as [|p patterns IH]; [destruct Hin|].
  simpl. destruct (search p text) eqn:E; [reflexivity|].
  destruct Hin as [->|Hin]; [|now apply IH].
  rewrite E in Hs. now destruct Hs.
Qed.

(** A word that begins and ends with a word character is found exactly where
    it stands alone. *)
Lemma bounded_search_iff `{Unicode} (w text : ustring) :
  word_edged w ->
  is_Some (search (bounded w) text) <-> occurs_standalone w text.
Proof.
  intros Hedge. unfold search. split.
  - intros [m Hm].
    apply search_from_found in Hm as (pre & s' & rest & Htext & Hrun).
    apply run_bounded in Hrun as (-> & Hci & Hb1 & Hb2).
    rewrite prev_after_None in Hb1, Hb2.
    destruct (ci_equal_edges _ _ Hci Hedge) as (Hne & Hmh & Hml).
    exists pre, m, rest. split; [now split|].
    unfold at_boundary in Hb1, Hb2.
    destruct m as [|x m]; [contradiction|].
    cbn [app head] in Hb1, Hmh. rewrite Hmh in Hb1.
    unfold prev_after in Hb2.
    destruct (last (x :: m)) as [z|]; [|discriminate Hml].
    rewrite Hml in Hb2.
    split.
    + now destruct (word_opt (last pre)).
    + now destruct (word_opt (head rest)).
  - intros (pre & occ & post & [Htext Hci] & Hpre & Hpost).
    rewrite Htext. apply search_from_hit.
    destruct (ci_equal_edges _ _ Hci Hedge) as (Hne & Hmh & Hml).
    assert (Hin : In (occ, post)
                     (run (bounded w) (prev_after None pre) (occ ++ post))).
    { apply run_bounded. rewrite prev_after_None.
      split; [reflexivity|]. split; [exact Hci|].
      destruct occ as [|x occ]; [contradiction|].
      unfold at_boundary. cbn [app head] in Hmh |- *.
      rewrite Hpre, Hmh. split; [reflexivity|].
      unfold prev_after. destruct (last (x :: occ)) as [z|]; [|discriminate Hml].
      now rewrite Hml, Hpost. }
    intros E. rewrite E in Hin. destruct Hin.
Qed.

Lemma occurs_standalone_nonempty `{Unicode} (w text : ustring) :
  w <> [] -> occurs_standalone w text -> text <> [].
Proof.
  intros Hw (pre & occ & post & [Htext Hci] & _) ->.
  symmetry in Htext.
  apply app_eq_nil in Htext as [_ Htext]. apply app_eq_nil in Htext as [-> _].
  now apply ci_equal_nil in Hci.
Qed.

(** C1 (as amended).  A configured banned word without internal whitespace
    that begins and ends with a word character (a letter, a digit or the
    underscore, of any alphabet, and such in whatever case it is written) is
    matched, whatever the case, by every message in which it stands alone
    as a token, no word character touching it, and is not matched by a
    message in which it occurs only inside longer tokens, as "ban" does in
    "urban". *)
Theorem banned_word_token_match `{Unicode} (w text : ustring) :
  no_whitespace (strip w) = true ->
  word_edged (strip w) ->
  (occurs_standalone (strip w) text ->
   forall words, In w words ->
     fst (contains_banned text (compile_patterns words)) = true) /\
  (occurs_only_embedded (strip w) text ->
   contains_banned text (compile_patterns [w]) = (false, [])).
Proof.
  intros Hws Hedge.
  pose proof (word_edged_nonempty _ Hedge) as Hne.
  pose proof (no_whitespace_has_space _ Hws) as Hsp.
  split.
  - intros Hocc words Hin.
    unfold contains_banned.
    pose proof (occurs_standalone_nonempty _ _ Hne Hocc) as Htext.
    rewrite (empty_false _ Htext).
    apply first_hit_true with (patt := bounded (strip w)).
    + now apply compile_patterns_bounded.
    + now apply bounded_search_iff.
  - intros Hemb. unfold contains_banned.
    destruct (empty text); [reflexivity|].
    cbn [compile_patterns]. rewrite (empty_false _ Hne), Hsp.
    cbn [first_hit].
    destruct (search (bounded (strip w)) text) as [m|] eqn:E; [|reflexivity].
    exfalso.
    assert (Hs : is_Some (search (bounded (strip w)) text)) by (rewrite E; eauto).
    apply bounded_search_iff in Hs; [|exact Hedge].
    destruct Hs as (pre & occ & post & Hocc & Hpre & Hpost).
    destruct (Hemb _ _ _ Hocc) as [E0|E0]; congruence.
Qed.

(** In the tables for examples, what a letter of a pattern matches is a
    letter. *)
Lemma between_spec (lo hi n : N) : between lo hi n = true <-> (lo <= n <= hi)%N.
Proof. unfold between. rewrite andb_true_iff, !N.leb_le. tauto. Qed.

Lemma between_false (lo hi n : N) : between lo hi n = false <-> (n < lo \/ hi < n)%N.
Proof. unfold between. rewrite andb_false_iff, !N.leb_gt. tauto. Qed.

Lemma tables_letter (c x : char) :
  (between 97 122 c || between 1072 1103 c)%bool = true ->
  @ci_match tables c x = true -> @is_word_char tables x = true.
Proof.
  cbn [ci_match is_word_char tables]. intros Hc E.
  apply N.eqb_eq in E. apply orb_true_iff in Hc. rewrite !between_spec in Hc.
  rewrite !orb_true_iff, !between_spec, N.eqb_eq.
  assert (Hl : lower1 c = c).
  { unfold lower1.
    destruct (between 65 90 c) eqn:E1; [apply between_spec in E1; lia|].
    destruct (between 1040 1071 c) eqn:E2; [apply between_spec in E2; lia|].
    destruct (between 1024 1039 c) eqn:E3; [apply between_spec in E3; lia|].
    reflexivity. }
  rewrite Hl in E. subst c. unfold lower1 in Hc.
  destruct (between 65 90 x) eqn:E1; [apply between_spec in E1; lia|].
  destruct (between 1040 1071 x) eqn:E2; [apply between_spec in E2; lia|].
  destruct (between 1024 1039 x) eqn:E3; [apply between_spec in E3; lia|].
  lia.
Qed.

Lemma ban_word_edged : @word_edged tables (@strip tables (u "ban")).
Proof.
  exists 98%N, 110%N. repeat split; intros x; now apply tables_letter.
Qed.

Lemma urban_only_embedded : @occurs_only_embedded tables (u "ban") (u "urban").
Proof.
  intros pre occ post [Ht Hci]. unfold ci_equal in Hci.
  replace (u "urban") with [117; 114; 98; 97; 110]%N in Ht by (vm_compute; reflexivity).
  replace (u "ban") with [98; 97; 110]%N in Hci by (vm_compute; reflexivity).
  destruct occ as [|a [|b [|c [|d occ]]]];
    cbn [ci_equalb] in Hci; rewrite ?andb_false_r in Hci; try discriminate Hci.
  destruct pre as [|p1 [|p2 [|p3 pre]]]; cbn [app] in Ht; inversion Ht; subst;
    try (vm_compute in Hci; discriminate Hci).
  - left. reflexivity.
  - destruct pre as [|p4 [|p5 [|p6 pre]]]; discriminate.
Qed.

(** The word "ban": found in "I will BAN you", not found in "urban". *)
Lemma banned_word_token_match_witness :
  fst (@contains_banned tables (u "I will BAN you")
                        (@compile_patterns tables [u "ban"])) = true /\
  @contains_banned tables (u "urban") (@compile_patterns tables [u "ban"])
  = (false, []).
Proof.
  split.
  - refine (proj1 (@banned_word_token_match tables (u "ban") (u "I will BAN you") _ _)
                  _ [u "ban"] _).
    + reflexivity.
    + exact ban_word_edged.
    + exists (u "I will "), (u "BAN"), (u " you").
      repeat split; reflexivity.
    + now left.
  - refine (proj2 (@banned_word_token_match tables (u "ban") (u "urban") _ _) _).
    + reflexivity.
    + exact ban_word_edged.
    + exact urban_only_embedded.
Defined.

(** C1 as stated fails for a word that ends with punctuation: "c++" stands
    alone in the message, between two spaces, and is not matched. *)
Lemma punctuation_edged_word_missed :
  @no_whitespace tables (@strip tables (u "c++")) = true /\
  @occurs_standalone tables (@strip tables (u "c++")) (u "I like c++ a lot") /\
  @contains_banned tables (u "I like c++ a lot") (@compile_patterns tables [u "c++"])
  = (false, []).
Proof.
  split; [reflexivity|]. split; [|reflexivity].
  exists (u "I like "), (u "c++"), (u " a lot").
  repeat split; reflexivity.
Qed.

(** ** Links *)

Lemma starts_with_spec (needle : ustring) :
  forall hay, starts_with needle hay = true <-> exists post, hay = needle ++ post.
Proof.
  induction needle as [|a needle IH]; intros hay.
  - split; [intros _; now exists hay | reflexivity].
  - destruct hay as [|b hay]; cbn [starts_with].
    + split; [discriminate | intros [post E]; discriminate E].
    + rewrite andb_true_iff, IH, N.eqb_eq. split.
      * intros [-> [post ->]]. now exists post.
      * intros [post E]. inversion E; subst. split; [reflexivity | now exists post].
Qed.

Lemma occurs_in_spec (needle : ustring) :
  forall hay,
    occurs_in needle hay = true <-> exists pre post, hay = pre ++ needle ++ post.
Proof.
  induction hay as [|b hay IH]; cbn [occurs_in]; rewrite orb_true_iff, starts_with_spec.
  - split.
    + intros [[post E]|E]; [now exists [], post | discriminate].
    + intros [pre [post E]]. left. destruct pre as [|p pre]; [now exists post|].
      discriminate E.
  - rewrite IH. split.
    + intros [[post E]|[pre [post E]]]; [now exists [], post|].
      exists (b :: pre), post. now rewrite E.
    + intros [pre [post E]]. destruct pre as [|p pre].
      * left. now exists post.
      * right. inversion E; subst. now exists pre, post.
Qed.

Lemma str_in_lower_spec `{Unicode} (d text : ustring) :
  str_in (lower d) (lower text) = true <-> ci_substring d text.
Proof. unfold str_in, ci_substring. apply occurs_in_spec. Qed.

Lemma allowlisted_true `{Unicode} (text : ustring) (allowed : list ustring) :
  allowlisted text allowed = true <->
  exists d, In d allowed /\ ci_substring d text.
Proof.
  induction allowed as [|d0 allowed IH]; cbn [allowlisted].
  - split; [discriminate | intros [d [[] _]]].
  - destruct (str_in (lower d0) (lower text)) eqn:E.
    + split; [|reflexivity]. intros _. exists d0. split; [now left|].
      now apply str_in_lower_spec.
    + rewrite IH. split.
      * intros [d [Hin E0]]. exists d. split; [now right | exact E0].
      * intros [d [[<-|Hin] E0]]; [|now exists d].
        apply str_in_lower_spec in E0. congruence.
Qed.





(** C10.  With the empty string in the allowlist, [contains_link] reports no
    link for any text: the empty string occurs in every text. *)
Theorem empty_allowlist_entry_disables_links `{Unicode}
        (text : ustring) (allowed : list ustring) :
  In [] allowed -> contains_link text allowed = (false, []).
Proof.
  intros Hin. unfold contains_link.
  destruct (empty text); [reflexivity|].
  destruct (search LINK_REGEX text); [|reflexivity].
  assert (E : allowlisted text allowed = true).
  { apply allowlisted_true. exists []. split; [exact Hin|].
    exists [], (lower text). now rewrite lower_empty. }
  now rewrite E.
Qed.

Lemma empty_allowlist_entry_disables_links_witness :
  @contains_link tables (u "https://example.com") [u "t.me"; u ""] = (false, []).
Proof.
  apply (@empty_allowlist_entry_disables_links tables). right. now left.
Defined.

(** ** The program monad *)

Lemma bind_ret {A B : Type} (m : M A) (k : A -> M B) (s s' : state) (a : A) :
  m s = (Ret a, s') -> (m ≫= k) s = k a s'.
Proof. intros H. unfold mbind, M_bind. now rewrite H. Qed.

Lemma bind_raise {A B : Type} (m : M A) (k : A -> M B) (s s' : state) (e : exn) :
  m s = (Raise e, s') -> (m ≫= k) s = (Raise e, s').
Proof. intros H. unfold mbind, M_bind. now rewrite H. Qed.

(** ** Settings store *)

(** C8.  [load_data] gives the empty mapping when [data.json] is absent and
    when opening or parsing it raises, and gives the parsed mapping when the
    file parses; it never raises and changes nothing. *)
Theorem load_data_falls_back_to_empty (s : state) :
  load_data (with_disk Missing s) = (Ret ∅, with_disk Missing s) /\
  (forall e, load_data (with_disk (Broken e) s) = (Ret ∅, with_disk (Broken e) s)) /\
  (forall doc,
     load_data (with_disk (Holds doc) s) = (Ret doc, with_disk (Holds doc) s)).
Proof. repeat split. Qed.

Lemma ensure_present (s : state) (chat_id : string) (d : ChatSettings) :
  data s !! chat_id = Some d -> ensure_chat_settings chat_id s = (Ret d, s).
Proof.
  intros H. unfold ensure_chat_settings, has_chat, get_chat, mbind, M_bind, mret, M_ret.
  rewrite H. rewrite bool_decide_true by eauto. cbn. now rewrite H.
Qed.

Lemma ensure_absent (s : state) (chat_id : string) :
  data s !! chat_id = None ->
  ensure_chat_settings chat_id s =
  (Ret (copy DEFAULTS), after_first_reference chat_id s).
Proof.
  intros H. unfold ensure_chat_settings, has_chat, get_chat, mbind, M_bind, mret, M_ret.
  rewrite H. rewrite bool_decide_false by (intros [? ?]; discriminate).
  cbn. now rewrite lookup_insert_eq.
Qed.

(** ** No handler touches a list object *)

Lemma keeps_ret {A : Type} (a : A) : keeps_lists (mret a : M A).
Proof. intros s. now split. Qed.

Lemma keeps_bind {A B : Type} (m : M A) (k : A -> M B) :
  keeps_lists m -> (forall a, keeps_lists (k a)) -> keeps_lists (m ≫= k).
Proof.
  intros Hm Hk s. unfold mbind, M_bind.
  destruct (Hm s) as [H1 H2].
  destruct (m s) as [[a|e] s1]; cbn in *.
  - destruct (Hk a s1) as [H3 H4]. split; congruence.
  - now split.
Qed.

Lemma keeps_try {A : Type} (m : M A) (h : exn -> M A) :
  keeps_lists m -> (forall e, keeps_lists (h e)) -> keeps_lists (try_except m h).
Proof.
  intros Hm Hh s. unfold try_except.
  destruct (Hm s) as [H1 H2].
  destruct (m s) as [[a|e] s1]; cbn in *.
  - now split.
  - destruct (Hh e s1) as [H3 H4]. split; congruence.
Qed.

Lemma keeps_lift {A : Type} (r : outcome A) : keeps_lists (lift r).
Proof. intros s. now split. Qed.

Lemma keeps_request {A : Type} (c : call) (r : outcome A) : keeps_lists (request c r).
Proof. intros s. now split. Qed.

Lemma keeps_api (pf : platform) (c : call) : keeps_lists (api pf c).
Proof. apply keeps_request. Qed.

Lemma keeps_has_chat (c : string) : keeps_lists (has_chat c).
Proof. intros s. now split. Qed.

Lemma keeps_set_chat (c : string) (d : ChatSettings) : keeps_lists (set_chat c d).
Proof. intros s. now split. Qed.

Lemma keeps_get_chat (c : string) : keeps_lists (get_chat c).
Proof. intros s. unfold get_chat. now destruct (data s !! c). Qed.

Lemma keeps_save_data : keeps_lists save_data.
Proof. intros s. now split. Qed.

Lemma keeps_assign (c : string) (f : ChatSettings -> ChatSettings) :
  keeps_lists (assign c f).
Proof. intros s. now split. Qed.

Lemma keeps_get_strs (o : option loc) : keeps_lists (get_strs o).
Proof. intros s. now split. Qed.

Lemma keeps_get_ints (o : option loc) : keeps_lists (get_ints o).
Proof. intros s. now split. Qed.

Lemma keeps_keyboard (pf : platform) : keeps_lists (admin_panel_keyboard pf).
Proof. apply keeps_lift. Qed.

Create HintDb keeps.
#[local] Hint Resolve keeps_ret keeps_lift keeps_request keeps_api keeps_has_chat
  keeps_set_chat keeps_get_chat keeps_save_data keeps_assign keeps_get_strs
  keeps_get_ints keeps_keyboard : keeps.

Ltac keeps_step :=
  match goal with
  | |- keeps_lists (_ ≫= _) => apply keeps_bind; [|intros ?]
  | |- keeps_lists (try_except _ _) => apply keeps_try; [|intros ?]
  | |- keeps_lists (if ?b then _ else _) => destruct b
  | |- keeps_lists (match ?x with Some _ => _ | None => _ end) => destruct x
  | |- keeps_lists (let '(_, _) := ?x in _) => destruct x
  | |- keeps_lists _ => solve [auto with keeps]
  end.

Lemma keeps_ensure (c : string) : keeps_lists (ensure_chat_settings c).
Proof. unfold ensure_chat_settings. repeat keeps_step. Qed.

Lemma keeps_is_bot_admin (c : string) (u : Z) : keeps_lists (is_bot_admin c u).
Proof.
  unfold is_bot_admin. apply keeps_bind; [apply keeps_ensure|intros ?].
  repeat keeps_step.
Qed.

Lemma keeps_is_user_admin (pf : platform) (c u : Z) :
  keeps_lists (is_user_admin pf c u).
Proof. unfold is_user_admin. repeat keeps_step. Qed.

#[local] Hint Resolve keeps_ensure keeps_is_bot_admin keeps_is_user_admin : keeps.

Lemma keeps_show_admin_panel (pf : platform) (m : Message) :
  keeps_lists (show_admin_panel pf m).
Proof. unfold show_admin_panel. repeat keeps_step. Qed.

Lemma keeps_toggle_enabled (pf : platform) (q : CallbackQuery) :
  keeps_lists (callback_toggle_enabled pf q).
Proof. unfold callback_toggle_enabled. repeat keeps_step. Qed.

Lemma keeps_toggle_mode (pf : platform) (q : CallbackQuery) :
  keeps_lists (callback_toggle_mode pf q).
Proof. unfold callback_toggle_mode. repeat keeps_step. Qed.

Lemma keeps_violations `{Unicode} (d : ChatSettings) (t : ustring) :
  keeps_lists (violations d t).
Proof. unfold violations. repeat keeps_step. Qed.

Lemma keeps_punish (pf : platform) (m : Message) (n a : string) (secs : Z) (r : string) :
  keeps_lists (punish pf m n a secs r).
Proof. unfold punish. repeat keeps_step. Qed.

Lemma keeps_delete (pf : platform) (m : Message) : keeps_lists (delete_offending pf m).
Proof. unfold delete_offending. repeat keeps_step. Qed.

#[local] Hint Resolve keeps_violations keeps_punish keeps_delete : keeps.

Lemma keeps_moderate `{Unicode} (pf : platform) (m : Message) (d : ChatSettings) :
  keeps_lists (moderate pf m d).
Proof.
  unfold moderate. apply keeps_bind; [auto with keeps|intros [b l]].
  repeat keeps_step.
Qed.

#[local] Hint Resolve keeps_moderate : keeps.

Lemma keeps_mod_message `{Unicode} (pf : platform) (m : Message) :
  keeps_lists (mod_message pf m).
Proof. unfold mod_message. repeat keeps_step. Qed.

Lemma keeps_handle `{Unicode} (pf : platform) (u : update) :
  keeps_lists (handle pf u).
Proof.
  destruct u; cbn [handle];
    auto using keeps_show_admin_panel, keeps_toggle_enabled, keeps_toggle_mode,
               keeps_mod_message.
Qed.

(** ** The lists of the defaults stay empty *)

Lemma alloc_extends {A : Type} (o : option (list A)) (h : list (list A)) :
  exists ext, snd (alloc o h) = h ++ ext.
Proof.
  destruct o as [l|]; cbn.
  - now exists [l].
  - exists []. now rewrite app_nil_r.
Qed.

Lemma intern_settings_extends (d : SettingsDoc) (s : state) :
  exists e1 e2,
    str_lists (snd (intern_settings d s)) = str_lists s ++ e1 /\
    int_lists (snd (intern_settings d s)) = int_lists s ++ e2.
Proof.
  unfold intern_settings.
  destruct (alloc_extends (banned_words d) (str_lists s)) as [x1 H1].
  destruct (alloc (banned_words d) (str_lists s)) as [bw h1]. cbn in H1.
  destruct (alloc_extends (allowed_links d) h1) as [x2 H2].
  destruct (alloc (allowed_links d) h1) as [al h2]. cbn in H2.
  destruct (alloc_extends (bot_admins d) (int_lists s)) as [x3 H3].
  destruct (alloc (bot_admins d) (int_lists s)) as [ba g1]. cbn in H3.
  cbn. exists (x1 ++ x2), x3. subst. now rewrite app_assoc.
Qed.

Lemma intern_extends (doc : gmap string SettingsDoc) (s : state) :
  exists e1 e2,
    str_lists (intern doc s) = str_lists s ++ e1 /\
    int_lists (intern doc s) = int_lists s ++ e2.
Proof.
  unfold intern.
  induction (map_to_list doc) as [|[c d] l IH]; cbn [foldr].
  - exists [], []. now rewrite !app_nil_r.
  - destruct IH as (e1 & e2 & H1 & H2).
    set (s1 := foldr _ s l) in *.
    destruct (intern_settings_extends d s1) as (x1 & x2 & H3 & H4).
    destruct (intern_settings d s1) as [cs s2]. cbn in *.
    exists (e1 ++ x1), (e2 ++ x2).
    rewrite H3, H4, H1, H2. now rewrite !app_assoc.
Qed.

Lemma pristine_boot (f : file) : pristine (boot f).
Proof.
  destruct f as [|e|doc]; try (repeat split; reflexivity).
  change (pristine (intern doc (mkState [[]; []] [[]] ∅ (Holds doc) 0%nat []))).
  destruct (intern_extends doc (mkState [[]; []] [[]] ∅ (Holds doc) 0%nat []))
    as (e1 & e2 & H1 & H2).
  unfold pristine. rewrite H1, H2. repeat split.
Qed.

Lemma pristine_reachable `{Unicode} (s : state) : reachable s -> pristine s.
Proof.
  induction 1 as [f|pf u s _ IH].
  - apply pristine_boot.
  - destruct (keeps_handle pf u s) as [H1 H2].
    unfold pristine. now rewrite H1, H2.
Qed.

Lemma deep_defaults (s : state) : pristine s -> deep s (copy DEFAULTS) = DEFAULTS_doc.
Proof.
  intros (H0 & H1 & H2).
  assert (E0 : deref (str_lists s) 0%nat = []) by (unfold deref; now rewrite H0).
  assert (E1 : deref (str_lists s) 1%nat = []) by (unfold deref; now rewrite H1).
  assert (E2 : deref (int_lists s) 0%nat = []) by (unfold deref; now rewrite H2).
  unfold deep. cbn -[deref]. now rewrite E0, E1, E2.
Qed.

(** C4.  In a state of the running bot, the first call of
    [ensure_chat_settings] for a chat that has no entry returns a copy of the
    defaults, puts it in [data] under the chat identifier, and rewrites the
    file with the whole of [data] before it returns; written out, the new
    entry is enabled, in mode "admins", with empty banned-word and allowlist
    lists, and with action "mute" for 600 seconds for words and for links.
    For a chat that has an entry, the call returns that entry, changes
    nothing and writes nothing. *)
Theorem ensure_chat_settings_defaults `{Unicode} (s : state) (chat_id : string) :
  reachable s ->
  (data s !! chat_id = None ->
   exists s',
     ensure_chat_settings chat_id s = (Ret (copy DEFAULTS), s') /\
     data s' = <[chat_id := copy DEFAULTS]> (data s) /\
     deep s' (copy DEFAULTS) = DEFAULTS_doc /\
     disk s' = Holds (snapshot s') /\
     snapshot s' !! chat_id = Some DEFAULTS_doc /\
     writes s' = S (writes s)) /\
  (forall d, data s !! chat_id = Some d ->
             ensure_chat_settings chat_id s = (Ret d, s)).
Proof.
  intros Hs. apply pristine_reachable in Hs. split.
  - intros Hnone. exists (after_first_reference chat_id s).
    split; [now apply ensure_absent|].
    split; [reflexivity|].
    assert (Hd : deep (after_first_reference chat_id s) (copy DEFAULTS) = DEFAULTS_doc)
      by now apply deep_defaults.
    split; [exact Hd|].
    split; [reflexivity|].
    split; [|reflexivity].
    unfold snapshot. cbn [data after_first_reference].
    rewrite lookup_fmap, lookup_insert_eq. cbn. now rewrite Hd.
  - intros d Hd. now apply ensure_present.
Qed.

(** A chat seen for the first time after a start without a file. *)
Lemma ensure_chat_settings_defaults_witness :
  exists s',
    ensure_chat_settings "-1001" (boot Missing) = (Ret (copy DEFAULTS), s') /\
    data s' = <["-1001" := copy DEFAULTS]> (data (boot Missing)) /\
    deep s' (copy DEFAULTS) = DEFAULTS_doc /\
    disk s' = Holds (snapshot s') /\
    snapshot s' !! "-1001" = Some DEFAULTS_doc /\
    writes s' = S (writes (boot Missing)).
Proof.
  apply (@ensure_chat_settings_defaults tables (boot Missing) "-1001").
  - apply reach_boot.
  - reflexivity.
Defined.

(** ** Authorization *)

(** C9.  [is_user_admin] answers [True] for the owner without a request to
    the platform (the state, with its record of the calls made, is as it
    was), and answers [False], raising nothing, when the membership request
    raises, as also when reading the member's role raises. *)
Theorem is_user_admin_owner_and_failures
        (pf : platform) (chat_id user_id : Z) (s : state) :
  is_user_admin pf chat_id OWNER_ID s = (Ret true, s) /\
  (user_id <> OWNER_ID ->
   forall e, get_chat_member pf chat_id user_id = Raise e ->
     is_user_admin pf chat_id user_id s =
     (Ret false, logged (GetChatMember chat_id user_id) s)) /\
  (user_id <> OWNER_ID ->
   forall member e,
     get_chat_member pf chat_id user_id = Ret member ->
     is_chat_admin member = Raise e ->
     is_user_admin pf chat_id user_id s =
     (Ret false, logged (GetChatMember chat_id user_id) s)).
Proof.
  split; [reflexivity|].
  split.
  - intros Hne e He. unfold is_user_admin.
    apply Z.eqb_neq in Hne. rewrite Hne.
    unfold try_except, mbind, M_bind, request. now rewrite He.
  - intros Hne member e Hm He. unfold is_user_admin.
    apply Z.eqb_neq in Hne. rewrite Hne.
    unfold try_except, mbind, M_bind, request, lift. now rewrite Hm, He.
Qed.

Lemma is_user_admin_owner_and_failures_witness :
  is_user_admin failing_platform (-1001) 5 (boot Missing) =
  (Ret false, logged (GetChatMember (-1001) 5) (boot Missing)).
Proof.
  refine (proj1 (proj2 (is_user_admin_owner_and_failures
                          failing_platform (-1001) 5 (boot Missing)))
                _ TelegramNetworkError _).
  - discriminate.
  - reflexivity.
Defined.

Lemma is_bot_admin_result (chat_id : string) (user_id : Z) (s : state) :
  is_bot_admin chat_id user_id s =
  (Ret (existsb (Z.eqb user_id) (chat_bot_admins s chat_id)
        || Z.eqb user_id OWNER_ID)%bool,
   snd (ensure_chat_settings chat_id s)).
Proof.
  unfold is_bot_admin, chat_bot_admins.
  destruct (data s !! chat_id) as [d|] eqn:E.
  - rewrite (bind_ret _ _ _ _ _ (ensure_present _ _ _ E)).
    rewrite (ensure_present _ _ _ E). reflexivity.
  - rewrite (bind_ret _ _ _ _ _ (ensure_absent _ _ E)).
    rewrite (ensure_absent _ _ E). reflexivity.
Qed.

Lemma existsb_eqb_false (u : Z) (l : list Z) :
  ~ In u l -> existsb (Z.eqb u) l = false.
Proof.
  intros H. destruct (existsb (Z.eqb u) l) eqn:E; [|reflexivity].
  apply existsb_exists in E as [x [Hx Hu]]. apply Z.eqb_eq in Hu. now subst.
Qed.

(** ** Admin panel *)

(** C6 (as amended).  When a user who is neither the owner nor in the chat's
    bot-admin list sends the panel command, the answer is the rejection and
    nothing else is sent; no existing settings entry and no list object is
    changed; a chat that has an entry leaves the store, in memory and on
    disk, exactly as it was; a chat that has none gets, as on any first
    reference, its copy of the defaults, and the file is rewritten. *)
Theorem rejected_panel_command (pf : platform) (message : Message) (s : state) :
  from_user message <> OWNER_ID ->
  ~ In (from_user message) (chat_bot_admins s (str (chat message))) ->
  let chat_id := str (chat message) in
  let rej := Reply (chat message) (message_id message) rejection [] in
  let s' := snd (ensure_chat_settings chat_id s) in
  show_admin_panel pf message s = (respond pf rej, logged rej s') /\
  (forall c d, data s !! c = Some d ->
               data s' !! c = Some d /\ deep s' d = deep s d) /\
  (is_Some (data s !! chat_id) -> s' = s) /\
  (data s !! chat_id = None -> s' = after_first_reference chat_id s).
Proof.
  intros Hown Hadm chat_id rej s'.
  assert (Hpres : is_Some (data s !! chat_id) -> s' = s).
  { intros [d Hd]. unfold s'. now rewrite (ensure_present _ _ _ Hd). }
  assert (Habs : data s !! chat_id = None -> s' = after_first_reference chat_id s).
  { intros Hn. unfold s'. now rewrite (ensure_absent _ _ Hn). }
  split; [|split; [|split; assumption]].
  - unfold show_admin_panel, s', rej, chat_id. cbv zeta.
    rewrite (bind_ret _ _ _ _ _ (is_bot_admin_result _ _ _)).
    rewrite (existsb_eqb_false _ _ Hadm).
    apply Z.eqb_neq in Hown. rewrite Hown. reflexivity.
  - intros c d Hc.
    destruct (data s !! chat_id) as [d0|] eqn:E.
    + rewrite Hpres by eauto. now split.
    + rewrite Habs by reflexivity. split; [|reflexivity].
      cbn [data after_first_reference]. rewrite lookup_insert_ne; [exact Hc|].
      intros <-. congruence.
Qed.

Lemma rejected_panel_command_witness :
  show_admin_panel quiet_platform (sample_message "/admin") (boot (Holds sample_doc)) =
  (Ret tt,
   logged (Reply (-1001) 7 rejection []) (boot (Holds sample_doc))).
Proof.
  pose proof (rejected_panel_command quiet_platform (sample_message "/admin")
                (boot (Holds sample_doc))) as H.
  cbv zeta in H.
  destruct H as (H1 & _ & H3 & _).
  - discriminate.
  - vm_compute. tauto.
  - rewrite H1, H3; [reflexivity|].
    vm_compute. eauto.
Defined.

(** C6 as stated fails in a chat that has no entry yet: the rejected command
    creates the entry and rewrites the file. *)
Lemma rejected_panel_command_creates_entry :
  let s := boot Missing in
  let message := sample_message "/admin" in
  let r := show_admin_panel quiet_platform message s in
  from_user message <> OWNER_ID /\
  ~ In (from_user message) (chat_bot_admins s (str (chat message))) /\
  sent (snd r) = [Reply (-1001) 7 rejection []] /\
  data s !! "-1001" = None /\
  data (snd r) !! "-1001" = Some (copy DEFAULTS) /\
  disk s = Missing /\
  disk (snd r) = Holds {[ "-1001" := DEFAULTS_doc ]} /\
  writes (snd r) = S (writes s).
Proof.
  cbv zeta. split; [discriminate|]. split; [vm_compute; tauto|].
  repeat split; vm_compute; reflexivity.
Qed.

(** ** Moderation *)

(** C7.  The duration in the mute notification is given in minutes when the
    configured duration is at least 60 seconds, 600 seconds reading
    "10 минут", and in seconds when it is under 60 seconds. *)
Theorem mute_duration_rendering (mute_seconds : Z) :
  (60 <= mute_seconds ->
   minutes_text mute_seconds = str (mute_seconds / 60) +:+ " минут") /\
  (mute_seconds < 60 ->
   minutes_text mute_seconds = str mute_seconds +:+ " секунд") /\
  minutes_text 600 = "10 минут".
Proof.
  unfold minutes_text. cbv zeta. split; [|split; [|reflexivity]].
  - intros H.
    assert (H1 : 1 <= mute_seconds / 60) by (apply Z.div_le_lower_bound; lia).
    apply Z.leb_le in H1. now rewrite H1.
  - intros H.
    assert (H1 : mute_seconds / 60 < 1) by (apply Z.div_lt_upper_bound; lia).
    apply Z.leb_gt in H1. now rewrite H1.
Qed.

Lemma mute_duration_rendering_witness :
  minutes_text 90 = "1 минут" /\ minutes_text 45 = "45 секунд".
Proof.
  split.
  - refine (proj1 (mute_duration_rendering 90) _). lia.
  - refine (proj1 (proj2 (mute_duration_rendering 45)) _). lia.
Defined.

Lemma violations_result `{Unicode} (settings : ChatSettings) (text : ustring) (s : state) :
  violations settings text s =
  (Ret (fst (contains_banned text
               (compile_patterns (strs_at s (banned_words settings)))),
        if default true (link_protection settings)
        then fst (contains_link text (strs_at s (allowed_links settings)))
        else false),
   s).
Proof.
  unfold violations, mbind, M_bind, get_strs, strs_at, mret, M_ret.
  now destruct (default true (link_protection settings)).
Qed.

(** C2.  When the text of a message has both a banned word and a link that
    the allowlist does not suppress, the check reports the word (and the
    link, when link protection is on), and the engine deletes the message
    and carries out the action configured for words, with the duration
    configured for words and "запрещённое слово" as the reason. *)
Theorem word_violation_takes_precedence `{Unicode}
        (pf : platform) (message : Message) (settings : ChatSettings) (s : state) :
  let text := message_text message in
  fst (contains_banned text
         (compile_patterns (strs_at s (banned_words settings)))) = true ->
  fst (contains_link text (strs_at s (allowed_links settings))) = true ->
  violations settings text s =
    (Ret (true, default true (link_protection settings)), s) /\
  (forall found_link,
     select_action settings true found_link =
     Some (default "mute" (action_words settings),
           default 600 (mute_seconds_words settings),
           "запрещённое слово")) /\
  moderate pf message settings s =
    (delete_offending pf message ;;
     punish pf message (display_name message)
            (default "mute" (action_words settings))
            (default 600 (mute_seconds_words settings))
            "запрещённое слово") s.
Proof.
  intros text Hword Hlink.
  assert (Hv : violations settings text s =
               (Ret (true, default true (link_protection settings)), s)).
  { rewrite violations_result, Hword, Hlink.
    now destruct (default true (link_protection settings)). }
  split; [exact Hv|]. split; [reflexivity|].
  unfold moderate. fold text.
  rewrite (bind_ret _ _ _ _ _ Hv). reflexivity.
Qed.

(** "spam" and a link in one message: the sender is banned, as configured
    for words, and not warned, as configured for links. *)
Lemma word_violation_takes_precedence_witness :
  sent (snd (@moderate tables quiet_platform (sample_message "spam at https://x.io")
                       sample_settings (boot (Holds sample_doc)))) =
  [ DeleteMessage (-1001) 7;
    BanChatMember (-1001) 5;
    SendMessage (-1001)
      (notice "@bob" "запрещённое слово" "был заблокирован") ].
Proof.
  pose proof (@word_violation_takes_precedence tables quiet_platform
                (sample_message "spam at https://x.io")
                sample_settings (boot (Holds sample_doc))) as H.
  cbv zeta in H.
  destruct H as (_ & _ & H).
  - vm_compute. reflexivity.
  - vm_compute. reflexivity.
  - rewrite H. vm_compute. reflexivity.
Defined.

(** A message in a group whose chat has settings, with the bot enabled and
    the mode not "admins", goes to the check as it is. *)
Lemma mod_message_moderates `{Unicode}
      (pf : platform) (message : Message) (settings : ChatSettings) (s : state) :
  in_group message = true ->
  data s !! str (chat message) = Some settings ->
  default true (enabled settings) = true ->
  String.eqb (default "admins" (mode settings)) "admins" = false ->
  mod_message pf message s = moderate pf message settings s.
Proof.
  intros Hg Hd He Hm. unfold mod_message. rewrite Hg. cbn [negb]. cbv zeta.
  rewrite (bind_ret _ _ _ _ _ (ensure_present _ _ _ Hd)).
  rewrite He, Hm. reflexivity.
Qed.

Example both_violations_end_to_end :
  sent (snd (@mod_message tables quiet_platform
                          (sample_message "spam at https://x.io")
                          (boot (Holds sample_doc)))) =
  [ DeleteMessage (-1001) 7;
    BanChatMember (-1001) 5;
    SendMessage (-1001)
      (notice "@bob" "запрещённое слово" "был заблокирован") ].
Proof. vm_compute. reflexivity. Qed.

(** ** Sharing of the defaults *)





(* ===================================================================== *)
(** * Further properties of the code *)
(* ===================================================================== *)

(** ** Matching of banned words and phrases *)

Lemma plain_search_iff `{Unicode} (w text : ustring) :
  is_Some (search (plain w) text) <-> occurs w text.
Proof.
  unfold search. split.
  - intros [m Hm].
    apply search_from_found in Hm as (pre & s' & rest & Htext & Hrun).
    apply run_literal in Hrun as [-> Hci].
    now exists pre, m, rest.
  - intros (pre & occ & post & Htext & Hci).
    rewrite Htext. apply search_from_hit.
    assert (Hin : In (occ, post)
                     (run (plain w) (prev_after None pre) (occ ++ post)))
      by (apply run_literal; now split).
    intros E. rewrite E in Hin. destruct Hin.
Qed.

Lemma occurs_nonempty `{Unicode} (w text : ustring) :
  w <> [] -> occurs w text -> text <> [].
Proof.
  intros Hw (pre & occ & post & Htext & Hci) ->.
  symmetry in Htext.
  apply app_eq_nil in Htext as [_ Htext]. apply app_eq_nil in Htext as [-> _].
  now apply ci_equal_nil in Hci.
Qed.

(** X1.  A configured phrase that still has a space in it once stripped is
    matched as a plain substring, whatever the case and whatever stands next
    to it: the message is flagged exactly when the phrase occurs in it. *)
Theorem banned_phrase_matches_anywhere `{Unicode} (w text : ustring) :
  strip w <> [] ->
  has_space (strip w) = true ->
  fst (contains_banned text (compile_patterns [w])) = true <->
  occurs (strip w) text.
Proof.
  intros Hne Hsp. cbn [compile_patterns].
  rewrite (empty_false _ Hne), Hsp.
  unfold contains_banned. cbn [first_hit]. split.
  - destruct (empty text); [discriminate|].
    destruct (search (plain (strip w)) text) as [m|] eqn:E; [|discriminate].
    intros _. apply plain_search_iff. rewrite E. eauto.
  - intros Hocc.
    rewrite (empty_false _ (occurs_nonempty _ _ Hne Hocc)).
    apply plain_search_iff in Hocc as [m Hm]. now rewrite Hm.
Qed.

Lemma banned_phrase_matches_anywhere_witness :
  fst (@contains_banned tables (u "xxКУПИ  СЕЙЧАСyy")
                        (@compile_patterns tables [u " купи  сейчас "])) = true.
Proof.
  apply (@banned_phrase_matches_anywhere tables (u " купи  сейчас ")
                                         (u "xxКУПИ  СЕЙЧАСyy")).
  - discriminate.
  - reflexivity.
  - exists (u "xx"), (u "КУПИ  СЕЙЧАС"), (u "yy"). split; reflexivity.
Defined.

Lemma compile_patterns_origin `{Unicode} (patt : regex) (words : list ustring) :
  In patt (compile_patterns words) ->
  exists w, In w words /\ strip w <> [] /\
            (patt = plain (strip w) \/ patt = bounded (strip w)).
Proof.
  induction words as [|w0 words IH]; [intros []|].
  cbn [compile_patterns].
  destruct (empty (strip w0)) eqn:E.
  - intros Hp. destruct (IH Hp) as (w & Hin & Hw). exists w. split; [now right|exact Hw].
  - assert (E' : strip w0 <> []) by (intros E0; rewrite E0 in E; discriminate E).
    destruct (has_space (strip w0)); intros [<-|Hp].
    + exists w0. split; [now left|]. split; [exact E'|now left].
    + destruct (IH Hp) as (w & Hin & Hw). exists w. split; [now right|exact Hw].
    + exists w0. split; [now left|]. split; [exact E'|now right].
    + destruct (IH Hp) as (w & Hin & Hw). exists w. split; [now right|exact Hw].
Qed.

Lemma first_hit_origin `{Unicode} (text m : ustring) (patterns : list regex) :
  first_hit text patterns = (true, m) ->
  exists patt, In patt patterns /\ search patt text = Some m.
Proof.
  induction patterns as [|p patterns IH]; [discriminate|].
  cbn [first_hit]. destruct (search p text) as [m0|] eqn:E.
  - intros E0. injection E0 as <-. exists p. split; [now left|exact E].
  - intros E0. destruct (IH E0) as (patt & Hin & Hs).
    exists patt. split; [now right|exact Hs].
Qed.

Lemma first_hit_miss `{Unicode} (text m : ustring) (patterns : list regex) :
  first_hit text patterns = (false, m) -> m = [].
Proof.
  induction patterns as [|p patterns IH]; cbn [first_hit].
  - intros E. now injection E as <-.
  - destruct (search p text); [discriminate|exact IH].
Qed.

(** X2.  What [contains_banned] reports is real: the text it returns with
    [True] is a piece of the message equal, up to case, to one of the
    configured words once stripped, which is not empty; with [False] the
    text returned is empty. *)
Theorem contains_banned_reports_a_configured_word `{Unicode}
        (text : ustring) (words : list ustring) (hit : bool) (m : ustring) :
  contains_banned text (compile_patterns words) = (hit, m) ->
  if hit
  then exists w pre post,
         In w words /\ strip w <> [] /\
         occurrence (strip w) text pre m post
  else m = [].
Proof.
  unfold contains_banned. destruct (empty text).
  - intros E. injection E as <- <-. reflexivity.
  - destruct hit; [|apply first_hit_miss].
    intros E. apply first_hit_origin in E as (patt & Hin & Hs).
    apply compile_patterns_origin in Hin as (w & Hw & Hne & Hp).
    apply search_from_found in Hs as (pre & s' & rest & Htext & Hrun).
    exists w, pre, rest. split; [exact Hw|]. split; [exact Hne|].
    destruct Hp as [-> | ->].
    + apply run_literal in Hrun as [-> Hci]. now split.
    + apply run_bounded in Hrun as (-> & Hci & _). now split.
Qed.

Lemma lstrip_blank `{Unicode} (l : ustring) : forallb is_space l = true -> lstrip l = [].
Proof.
  induction l as [|c l IH]; [reflexivity|].
  cbn [forallb lstrip]. intros E. apply andb_true_iff in E as [Hc Hl].
  rewrite Hc. now apply IH.
Qed.

Lemma strip_blank `{Unicode} (w : ustring) : blank w = true -> strip w = [].
Proof.
  unfold blank, strip. intros E. now rewrite (lstrip_blank _ E).
Qed.

Lemma compile_patterns_app `{Unicode} (a b : list ustring) :
  compile_patterns (a ++ b) = compile_patterns a ++ compile_patterns b.
Proof.
  induction a as [|w a IH]; [reflexivity|].
  cbn [app compile_patterns]. rewrite IH.
  destruct (empty (strip w)); [reflexivity|].
  now destruct (has_space (strip w)).
Qed.

(** X3.  A configured word that is empty or made of whitespace only is
    skipped: wherever it stands in the list, the compiled patterns, and so
    every verdict of [contains_banned], are those of the list without it. *)
Theorem blank_words_are_skipped `{Unicode} (a b : list ustring) (w text : ustring) :
  blank w = true ->
  compile_patterns (a ++ w :: b) = compile_patterns (a ++ b) /\
  contains_banned text (compile_patterns (a ++ w :: b)) =
  contains_banned text (compile_patterns (a ++ b)).
Proof.
  intros Hb.
  assert (E : compile_patterns (a ++ w :: b) = compile_patterns (a ++ b)).
  { rewrite !compile_patterns_app. cbn [compile_patterns].
    now rewrite (strip_blank _ Hb). }
  split; [exact E|now rewrite E].
Qed.

Lemma blank_words_are_skipped_witness :
  @compile_patterns tables ([u "spam"] ++ u "   " :: [u "scam"]) =
  @compile_patterns tables ([u "spam"] ++ [u "scam"]).
Proof.
  refine (proj1 (@blank_words_are_skipped tables [u "spam"] [u "scam"] (u "   ") [] _)).
  reflexivity.
Defined.

Lemma contains_banned_reports_a_configured_word_witness :
  exists w pre post,
    In w [u " Спам "] /\ @strip tables w <> [] /\
    @occurrence tables (@strip tables w) (u "no СПАМ here") pre (u "СПАМ") post.
Proof.
  exact (@contains_banned_reports_a_configured_word tables
           (u "no СПАМ here") [u " Спам "] true (u "СПАМ") eq_refl).
Defined.

(** ** Detection of links *)














(** X6.  The verdict of [contains_link] depends on which entries the
    allowlist has, not on their order or repetition; and a longer allowlist
    never makes a link out of a text that a shorter one let pass. *)
Theorem allowlist_is_a_set `{Unicode} (text : ustring) (a b : list ustring) :
  ((forall d, In d a <-> In d b) ->
   contains_link text a = contains_link text b) /\
  ((forall d, In d a -> In d b) ->
   fst (contains_link text b) = true -> fst (contains_link text a) = true).
Proof.
  assert (Hmono : forall x y : list ustring,
             (forall d, In d x -> In d y) ->
             allowlisted text x = true -> allowlisted text y = true).
  { intros x y Hxy E. apply allowlisted_true in E as (d & Hd & Hsub).
    apply allowlisted_true. exists d. split; [now apply Hxy|exact Hsub]. }
  split.
  - intros Hab. unfold contains_link.
    assert (E : allowlisted text a = allowlisted text b).
    { destruct (allowlisted text a) eqn:Ea, (allowlisted text b) eqn:Eb;
        try reflexivity.
      - apply (Hmono a b) in Ea; [congruence|]. intros d. apply Hab.
      - apply (Hmono b a) in Eb; [congruence|]. intros d. apply Hab. }
    now rewrite E.
  - intros Hab. unfold contains_link.
    destruct (empty text); [discriminate|].
    destruct (search LINK_REGEX text); [|discriminate].
    destruct (allowlisted text a) eqn:Ea; [|reflexivity].
    now rewrite (Hmono a b Hab Ea).
Qed.

Lemma allowlist_is_a_set_witness :
  @contains_link tables (u "see t.me/x") [u "a.org"; u "b.org"; u "a.org"] =
  @contains_link tables (u "see t.me/x") [u "b.org"; u "a.org"].
Proof.
  apply (proj1 (@allowlist_is_a_set tables (u "see t.me/x")
                  [u "a.org"; u "b.org"; u "a.org"] [u "b.org"; u "a.org"])).
  intros d. cbn [In]. tauto.
Defined.

(** ** What a start over a file loads *)

Lemma deref_old {A : Type} (h e : list (list A)) (p : nat) :
  (p < length h)%nat -> deref (h ++ e) p = deref h p.
Proof. intros H. unfold deref. now rewrite lookup_app_l. Qed.

Lemma deref_new {A : Type} (h : list (list A)) (l : list A) :
  deref (h ++ [l]) (length h) = l.
Proof. unfold deref. now rewrite list_lookup_middle. Qed.

Lemma deep_extends (s s' : state) (d : ChatSettings) :
  closed s d -> extends s s' -> deep s' d = deep s d /\ closed s' d.
Proof.
  intros (Hb & Ha & Hi) (e1 & e2 & H1 & H2). split.
  - unfold deep. rewrite H1, H2.
    destruct (banned_words d) as [p1|] eqn:E1,
             (allowed_links d) as [p2|] eqn:E2,
             (bot_admins d) as [p3|] eqn:E3; cbn;
      rewrite ?(deref_old _ _ p1), ?(deref_old _ _ p2), ?(deref_old _ _ p3);
      auto.
  - unfold closed. rewrite H1, H2, !length_app.
    repeat split; intros p Hp;
      [apply Hb in Hp | apply Ha in Hp | apply Hi in Hp]; lia.
Qed.

Lemma extends_refl (s : state) : extends s s.
Proof. exists [], []. now rewrite !app_nil_r. Qed.

Lemma extends_trans (s1 s2 s3 : state) :
  extends s1 s2 -> extends s2 s3 -> extends s1 s3.
Proof.
  intros (a1 & a2 & H1 & H2) (b1 & b2 & H3 & H4).
  exists (a1 ++ b1), (a2 ++ b2). rewrite H3, H4, H1, H2. now rewrite !app_assoc.
Qed.

Lemma intern_settings_spec (d : SettingsDoc) (s : state) :
  deep (snd (intern_settings d s)) (fst (intern_settings d s)) = d /\
  closed (snd (intern_settings d s)) (fst (intern_settings d s)) /\
  extends s (snd (intern_settings d s)) /\
  data (snd (intern_settings d s)) = data s.
Proof.
  destruct d as [bw al lp aw msw alk msl en mo ba].
  unfold intern_settings, closed, extends, deep.
  destruct bw as [l1|], al as [l2|], ba as [l3|]; cbn -[deref];
    (split; [|split; [|split; [|reflexivity]]]);
    try (repeat split; intros p Hp; try discriminate; injection Hp as <-;
         rewrite ?length_app; cbn; lia);
    try (eexists _, _; split; [rewrite <- ?app_assoc|]; try reflexivity;
         now rewrite app_nil_r);
    rewrite ?deref_new;
    try (rewrite (deref_old (str_lists s ++ [l1]) [l2] (length (str_lists s)))
          by (rewrite length_app; cbn; lia));
    rewrite ?deref_new; reflexivity.
Qed.

Lemma intern_fold_spec (l : list (string * SettingsDoc)) (s : state) :
  NoDup l.*1 ->
  let s' :=
    foldr (fun '(chat_id, d) s =>
             let '(cs, s1) := intern_settings d s in
             mkState (str_lists s1) (int_lists s1) (<[chat_id := cs]> (data s1))
                     (disk s1) (writes s1) (sent s1))
          s l in
  extends s s' /\
  (forall k, k ∉ l.*1 -> data s' !! k = data s !! k) /\
  (forall k d, (k, d) ∈ l ->
     exists cs, data s' !! k = Some cs /\ deep s' cs = d /\ closed s' cs).
Proof.
  induction l as [|[k0 d0] l IH]; intros Hnd; cbn [foldr].
  - split; [apply extends_refl|]. split; [reflexivity|].
    intros k d H. now apply elem_of_nil in H.
  - cbn in Hnd. apply NoDup_cons in Hnd as [Hk0 Hnd].
    specialize (IH Hnd). cbv zeta in IH.
    set (s1 := foldr _ s l) in *.
    destruct IH as (Hext & Hout & Hin).
    destruct (intern_settings_spec d0 s1) as (Hdeep & Hclosed & Hext2 & Hdata).
    destruct (intern_settings d0 s1) as [cs s2]. cbn [fst snd] in *.
    set (s3 := mkState _ _ _ _ _ _).
    assert (Hext3 : extends s2 s3)
      by (exists [], []; cbn; now rewrite !app_nil_r).
    split; [|split].
    + apply (extends_trans _ s1); [exact Hext|].
      apply (extends_trans _ s2); assumption.
    + intros k Hk. cbn in Hk. apply not_elem_of_cons in Hk as [Hne Hk].
      cbn [data s3]. rewrite lookup_insert_ne by congruence.
      rewrite Hdata. now apply Hout.
    + intros k d Hkd. apply elem_of_cons in Hkd as [E|Hkd].
      * injection E as -> ->. exists cs. cbn [data s3].
        rewrite lookup_insert_eq. split; [reflexivity|].
        destruct (deep_extends s2 s3 cs Hclosed Hext3) as [E1 E2].
        split; [congruence|exact E2].
      * assert (Hne : k0 <> k).
        { intros ->. apply Hk0. apply list_elem_of_fmap. now exists (k, d). }
        destruct (Hin k d Hkd) as (cs1 & Hl & Hd & Hc).
        exists cs1. cbn [data s3]. rewrite lookup_insert_ne by exact Hne.
        rewrite Hdata. split; [exact Hl|].
        destruct (deep_extends s1 s3 cs1 Hc (extends_trans _ _ _ Hext2 Hext3))
          as [E1 E2].
        split; [congruence|exact E2].
Qed.

Lemma snapshot_intern (doc : gmap string SettingsDoc) (s : state) :
  data s = ∅ -> snapshot (intern doc s) = doc.
Proof.
  intros Hempty.
  destruct (intern_fold_spec (map_to_list doc) s (NoDup_fst_map_to_list doc))
    as (_ & Hout & Hin).
  fold (intern doc s) in Hout, Hin.
  apply map_eq. intros k. unfold snapshot. rewrite lookup_fmap.
  destruct (doc !! k) as [d|] eqn:E.
  - apply elem_of_map_to_list in E.
    destruct (Hin k d E) as (cs & -> & Hd & _). cbn. now rewrite Hd.
  - rewrite Hout, Hempty; [reflexivity|].
    intros Hk. apply list_elem_of_fmap in Hk as [[k' d] [-> Hk]].
    apply elem_of_map_to_list in Hk. cbn in E. congruence.
Qed.

(** ** The file mirrors the memory *)

Lemma sync_ret {A : Type} (a : A) : keeps_sync (mret a : M A).
Proof. intros s H. exact H. Qed.

Lemma sync_bind {A B : Type} (m : M A) (k : A -> M B) :
  keeps_sync m -> (forall a, keeps_sync (k a)) -> keeps_sync (m ≫= k).
Proof.
  intros Hm Hk s Hs. unfold mbind, M_bind.
  specialize (Hm s Hs). destruct (m s) as [[a|e] s1]; cbn in *.
  - now apply Hk.
  - exact Hm.
Qed.

Lemma sync_try {A : Type} (m : M A) (h : exn -> M A) :
  keeps_sync m -> (forall e, keeps_sync (h e)) -> keeps_sync (try_except m h).
Proof.
  intros Hm Hh s Hs. unfold try_except.
  specialize (Hm s Hs). destruct (m s) as [[a|e] s1]; cbn in *.
  - exact Hm.
  - now apply Hh.
Qed.

Lemma sync_lift {A : Type} (r : outcome A) : keeps_sync (lift r).
Proof. intros s H. exact H. Qed.

Lemma sync_request {A : Type} (c : call) (r : outcome A) : keeps_sync (request c r).
Proof. intros s H. exact H. Qed.

Lemma sync_api (pf : platform) (c : call) : keeps_sync (api pf c).
Proof. apply sync_request. Qed.

Lemma sync_get_strs (o : option loc) : keeps_sync (get_strs o).
Proof. intros s H. exact H. Qed.

Lemma sync_get_ints (o : option loc) : keeps_sync (get_ints o).
Proof. intros s H. exact H. Qed.

Lemma sync_keyboard (pf : platform) : keeps_sync (admin_panel_keyboard pf).
Proof. apply sync_lift. Qed.

Lemma synced_save (s : state) : synced (snd (save_data s)).
Proof. left. reflexivity. Qed.

Lemma sync_ensure (c : string) : keeps_sync (ensure_chat_settings c).
Proof.
  intros s Hs. destruct (data s !! c) as [d|] eqn:E.
  - now rewrite (ensure_present _ _ _ E).
  - rewrite (ensure_absent _ _ E). left. reflexivity.
Qed.

(** An assignment to the settings followed by [save_data]. *)
Lemma sync_assign_save {B : Type} (c : string)
      (f : ChatSettings -> ChatSettings) (k : M B) :
  keeps_sync k -> keeps_sync (assign c f ≫= fun _ => save_data ≫= fun _ => k).
Proof. intros Hk s _. apply Hk, synced_save. Qed.

Create HintDb sync.
#[local] Hint Resolve sync_ret sync_lift sync_request sync_api sync_get_strs
  sync_get_ints sync_keyboard sync_ensure : sync.

Ltac sync_step :=
  match goal with
  | |- keeps_sync (assign _ _ ≫= _) => apply sync_assign_save
  | |- keeps_sync (_ ≫= _) => apply sync_bind; [|intros ?]
  | |- keeps_sync (try_except _ _) => apply sync_try; [|intros ?]
  | |- keeps_sync (if ?b then _ else _) => destruct b
  | |- keeps_sync (match ?x with Some _ => _ | None => _ end) => destruct x
  | |- keeps_sync (let '(_, _) := ?x in _) => destruct x
  | |- keeps_sync _ => solve [auto with sync]
  end.

Lemma sync_is_bot_admin (c : string) (u : Z) : keeps_sync (is_bot_admin c u).
Proof. unfold is_bot_admin. repeat sync_step. Qed.

Lemma sync_is_user_admin (pf : platform) (c u : Z) : keeps_sync (is_user_admin pf c u).
Proof. unfold is_user_admin. repeat sync_step. Qed.

#[local] Hint Resolve sync_is_bot_admin sync_is_user_admin : sync.

Lemma sync_show_admin_panel (pf : platform) (m : Message) :
  keeps_sync (show_admin_panel pf m).
Proof. unfold show_admin_panel. repeat sync_step. Qed.

Lemma sync_toggle_enabled (pf : platform) (q : CallbackQuery) :
  keeps_sync (callback_toggle_enabled pf q).
Proof. unfold callback_toggle_enabled. repeat sync_step. Qed.

Lemma sync_toggle_mode (pf : platform) (q : CallbackQuery) :
  keeps_sync (callback_toggle_mode pf q).
Proof. unfold callback_toggle_mode. repeat sync_step. Qed.

Lemma sync_moderate `{Unicode} (pf : platform) (m : Message) (d : ChatSettings) :
  keeps_sync (moderate pf m d).
Proof.
  unfold moderate, violations, delete_offending.
  apply sync_bind; [repeat sync_step|intros [b l]].
  destruct (negb b && negb l)%bool; [auto with sync|].
  apply sync_bind; [repeat sync_step|intros _].
  destruct (select_action d b l) as [[[a secs] r]|]; [|auto with sync].
  unfold punish. repeat sync_step.
Qed.

#[local] Hint Resolve sync_moderate : sync.

Lemma sync_mod_message `{Unicode} (pf : platform) (m : Message) :
  keeps_sync (mod_message pf m).
Proof. unfold mod_message. repeat sync_step. Qed.

Lemma sync_handle `{Unicode} (pf : platform) (u : update) :
  keeps_sync (handle pf u).
Proof.
  destruct u; cbn [handle];
    auto using sync_show_admin_panel, sync_toggle_enabled, sync_toggle_mode,
               sync_mod_message.
Qed.

Lemma intern_disk (doc : gmap string SettingsDoc) (s : state) :
  disk (intern doc s) = disk s.
Proof.
  unfold intern. induction (map_to_list doc) as [|[c d] l IH]; [reflexivity|].
  cbn [foldr]. destruct (intern_settings d _) as [cs s1] eqn:E. cbn.
  rewrite <- IH. unfold intern_settings in E.
  destruct (alloc _ _), (alloc _ _), (alloc _ _). now inversion E.
Qed.

Lemma synced_boot (f : file) : synced (boot f).
Proof.
  destruct f as [|e|doc].
  - right. split; [reflexivity|discriminate].
  - right. split; [reflexivity|discriminate].
  - left.
    change (boot (Holds doc))
      with (intern doc (mkState [[]; []] [[]] ∅ (Holds doc) 0%nat [])).
    rewrite intern_disk, snapshot_intern; reflexivity.
Qed.

(** X8.  In every state of the running bot, whatever file it started over
    and whatever updates it handled, [data.json] holds exactly what [data]
    holds, unless [data] is still empty and no document was ever there:
    no handler leaves a change of the settings unsaved. *)
Theorem file_mirrors_memory `{Unicode} (s : state) : reachable s -> synced s.
Proof.
  induction 1 as [f|pf u s _ IH].
  - apply synced_boot.
  - now apply sync_handle.
Qed.

Lemma file_mirrors_memory_witness :
  synced (snd (@handle tables quiet_platform
                      (ToggleMode {| q_chat := -1001; q_message_id := 9;
                                     q_from := OWNER_ID |})
                      (boot (Holds sample_doc)))).
Proof.
  apply (@file_mirrors_memory tables). apply reach_handle, reach_boot.
Defined.

(** ** One chat's updates and another chat's settings *)

Lemma str_inj (a b : Z) : str a = str b -> a = b.
Proof.
  unfold str. intros H. apply DecimalZ.to_int_inj.
  assert (Hn : forall n, Z.to_int n <> Decimal.Pos Decimal.Nil /\
                         Z.to_int n <> Decimal.Neg Decimal.Nil).
  { intros [|p|p]; cbn; split; try discriminate;
      intros E; injection E as E; now apply DecimalPos.Unsigned.to_uint_nonnil in E. }
  destruct (Hn a) as [Ha1 Ha2], (Hn b) as [Hb1 Hb2].
  pose proof (NilZero.isi _ Ha1 Ha2) as Ia.
  pose proof (NilZero.isi _ Hb1 Hb2) as Ib.
  rewrite H in Ia. congruence.
Qed.

Lemma touch_ret {A : Type} (c : string) (a : A) : touches_only c (mret a : M A).
Proof. intros s k _. reflexivity. Qed.

Lemma touch_bind {A B : Type} (c : string) (m : M A) (k : A -> M B) :
  touches_only c m -> (forall a, touches_only c (k a)) -> touches_only c (m ≫= k).
Proof.
  intros Hm Hk s x Hx. unfold mbind, M_bind.
  specialize (Hm s x Hx). destruct (m s) as [[a|e] s1]; cbn in *.
  - rewrite (Hk a s1 x Hx). exact Hm.
  - exact Hm.
Qed.

Lemma touch_try {A : Type} (c : string) (m : M A) (h : exn -> M A) :
  touches_only c m -> (forall e, touches_only c (h e)) ->
  touches_only c (try_except m h).
Proof.
  intros Hm Hh s x Hx. unfold try_except.
  specialize (Hm s x Hx). destruct (m s) as [[a|e] s1]; cbn in *.
  - exact Hm.
  - rewrite (Hh e s1 x Hx). exact Hm.
Qed.

Lemma touch_lift {A : Type} (c : string) (r : outcome A) : touches_only c (lift r).
Proof. intros s k _. reflexivity. Qed.

Lemma touch_request {A : Type} (c : string) (x : call) (r : outcome A) :
  touches_only c (request x r).
Proof. intros s k _. reflexivity. Qed.

Lemma touch_api (c : string) (pf : platform) (x : call) : touches_only c (api pf x).
Proof. apply touch_request. Qed.

Lemma touch_has_chat (c k : string) : touches_only c (has_chat k).
Proof. intros s x _. reflexivity. Qed.

Lemma touch_get_chat (c k : string) : touches_only c (get_chat k).
Proof. intros s x _. unfold get_chat. now destruct (data s !! k). Qed.

Lemma touch_set_chat (c : string) (d : ChatSettings) : touches_only c (set_chat c d).
Proof. intros s x Hx. cbn. now apply lookup_insert_ne. Qed.

Lemma touch_assign (c : string) (f : ChatSettings -> ChatSettings) :
  touches_only c (assign c f).
Proof. intros s x Hx. cbn. now apply lookup_alter_ne. Qed.

Lemma touch_save_data (c : string) : touches_only c save_data.
Proof. intros s x _. reflexivity. Qed.

Lemma touch_get_strs (c : string) (o : option loc) : touches_only c (get_strs o).
Proof. intros s x _. reflexivity. Qed.

Lemma touch_get_ints (c : string) (o : option loc) : touches_only c (get_ints o).
Proof. intros s x _. reflexivity. Qed.

Lemma touch_keyboard (c : string) (pf : platform) :
  touches_only c (admin_panel_keyboard pf).
Proof. apply touch_lift. Qed.

Create HintDb touch.
#[local] Hint Resolve touch_ret touch_lift touch_request touch_api touch_has_chat
  touch_get_chat touch_set_chat touch_assign touch_save_data touch_get_strs
  touch_get_ints touch_keyboard : touch.

Ltac touch_step :=
  match goal with
  | |- touches_only _ (_ ≫= _) => apply touch_bind; [|intros ?]
  | |- touches_only _ (try_except _ _) => apply touch_try; [|intros ?]
  | |- touches_only _ (if ?b then _ else _) => destruct b
  | |- touches_only _ (match ?x with Some _ => _ | None => _ end) => destruct x
  | |- touches_only _ (let '(_, _) := ?x in _) => destruct x
  | |- touches_only _ _ => solve [auto with touch]
  end.

Lemma touch_ensure (c : string) : touches_only c (ensure_chat_settings c).
Proof. unfold ensure_chat_settings. repeat touch_step. Qed.

#[local] Hint Resolve touch_ensure : touch.

Lemma touch_is_bot_admin (c : string) (u : Z) : touches_only c (is_bot_admin c u).
Proof. unfold is_bot_admin. repeat touch_step. Qed.

Lemma touch_is_user_admin (c : string) (pf : platform) (x u : Z) :
  touches_only c (is_user_admin pf x u).
Proof. unfold is_user_admin. repeat touch_step. Qed.

#[local] Hint Resolve touch_is_bot_admin touch_is_user_admin : touch.

Lemma touch_moderate `{Unicode} (c : string) (pf : platform) (m : Message) (d : ChatSettings) :
  touches_only c (moderate pf m d).
Proof.
  unfold moderate, violations, delete_offending.
  apply touch_bind; [repeat touch_step|intros [b l]].
  destruct (negb b && negb l)%bool; [auto with touch|].
  apply touch_bind; [repeat touch_step|intros _].
  destruct (select_action d b l) as [[[a secs] r]|]; [|auto with touch].
  unfold punish. repeat touch_step.
Qed.

#[local] Hint Resolve touch_moderate : touch.

Lemma touch_handle `{Unicode} (pf : platform) (u : update) :
  touches_only (str (update_chat u)) (handle pf u).
Proof.
  destruct u; cbn [handle update_chat].
  - unfold show_admin_panel. repeat touch_step.
  - unfold callback_toggle_enabled. repeat touch_step.
  - unfold callback_toggle_mode. repeat touch_step.
  - unfold mod_message. repeat touch_step.
Qed.

(** X9.  An update from one chat leaves the settings entry of every other
    chat as it was: the keys of two different chats are different, and a
    handler writes under the key of its own chat only. *)
Theorem other_chats_are_untouched `{Unicode}
        (pf : platform) (u : update) (other : Z) (s : state) :
  other <> update_chat u ->
  str other <> str (update_chat u) /\
  data (snd (handle pf u s)) !! str other = data s !! str other /\
  snapshot (snd (handle pf u s)) !! str other = snapshot s !! str other.
Proof.
  intros Hne.
  assert (Hk : str other <> str (update_chat u))
    by (intros E; now apply str_inj in E).
  pose proof (touch_handle pf u s _ Hk) as Hd.
  split; [exact Hk|]. split; [exact Hd|].
  unfold snapshot. rewrite !lookup_fmap, Hd.
  destruct (keeps_handle pf u s) as [H1 H2].
  destruct (data s !! str other) as [d|]; [|reflexivity].
  cbn. unfold deep. now rewrite H1, H2.
Qed.

Lemma other_chats_are_untouched_witness :
  data (snd (@handle tables quiet_platform
                    (ToggleEnabled {| q_chat := -2002; q_message_id := 9;
                                      q_from := OWNER_ID |})
                    (boot (Holds sample_doc)))) !! str (-1001) =
  data (boot (Holds sample_doc)) !! str (-1001).
Proof.
  refine (proj1 (proj2 (@other_chats_are_untouched tables quiet_platform _ (-1001) _ _))).
  discriminate.
Defined.

(** ** The panel's switches *)

Lemma only_ret {A : Type} (a : A) : only_calls (mret a : M A).
Proof. intros s. repeat split. Qed.

Lemma only_bind {A B : Type} (m : M A) (k : A -> M B) :
  only_calls m -> (forall a, only_calls (k a)) -> only_calls (m ≫= k).
Proof.
  intros Hm Hk s. unfold mbind, M_bind.
  destruct (Hm s) as (H1 & H2 & H3 & H4 & H5).
  destruct (m s) as [[a|e] s1]; cbn in *.
  - destruct (Hk a s1) as (K1 & K2 & K3 & K4 & K5).
    repeat split; congruence.
  - repeat split; assumption.
Qed.

Lemma only_try {A : Type} (m : M A) (h : exn -> M A) :
  only_calls m -> (forall e, only_calls (h e)) -> only_calls (try_except m h).
Proof.
  intros Hm Hh s. unfold try_except.
  destruct (Hm s) as (H1 & H2 & H3 & H4 & H5).
  destruct (m s) as [[a|e] s1]; cbn in *.
  - repeat split; assumption.
  - destruct (Hh e s1) as (K1 & K2 & K3 & K4 & K5).
    repeat split; congruence.
Qed.

Lemma only_lift {A : Type} (r : outcome A) : only_calls (lift r).
Proof. intros s. repeat split. Qed.

Lemma only_request {A : Type} (c : call) (r : outcome A) : only_calls (request c r).
Proof. intros s. repeat split. Qed.

Lemma only_api (pf : platform) (c : call) : only_calls (api pf c).
Proof. apply only_request. Qed.

Lemma only_get_strs (o : option loc) : only_calls (get_strs o).
Proof. intros s. repeat split. Qed.

Lemma only_keyboard (pf : platform) : only_calls (admin_panel_keyboard pf).
Proof. apply only_lift. Qed.

Create HintDb only.
#[local] Hint Resolve only_ret only_lift only_request only_api only_get_strs
  only_keyboard : only.

Ltac only_step :=
  match goal with
  | |- only_calls (_ ≫= _) => apply only_bind; [|intros ?]
  | |- only_calls (try_except _ _) => apply only_try; [|intros ?]
  | |- only_calls (if ?b then _ else _) => destruct b
  | |- only_calls (match ?x with Some _ => _ | None => _ end) => destruct x
  | |- only_calls (let '(_, _) := ?x in _) => destruct x
  | |- only_calls _ => solve [auto with only]
  end.

Lemma ensure_result (c : string) (s : state) :
  ensure_chat_settings c s = (Ret (settings_of s c), snd (ensure_chat_settings c s)) /\
  data (snd (ensure_chat_settings c s)) !! c = Some (settings_of s c) /\
  str_lists (snd (ensure_chat_settings c s)) = str_lists s /\
  int_lists (snd (ensure_chat_settings c s)) = int_lists s.
Proof.
  unfold settings_of. destruct (data s !! c) as [d|] eqn:E.
  - rewrite (ensure_present _ _ _ E). cbn. now rewrite E.
  - rewrite (ensure_absent _ _ E). cbn. now rewrite lookup_insert_eq.
Qed.

Lemma authorised_after_ensure (c : string) (u : Z) (s : state) :
  authorised (snd (ensure_chat_settings c s)) c u = authorised s c u.
Proof.
  destruct (ensure_result c s) as (_ & Hd & _ & Hi).
  unfold authorised, chat_bot_admins. rewrite Hd, Hi. reflexivity.
Qed.

(** The first two steps of a switch: the settings are made sure of and the
    user is tested. *)
Lemma switch_entry {B : Type} (c : string) (u : Z)
      (k : ChatSettings -> bool -> M B) (s : state) :
  (settings ← ensure_chat_settings c;
   allowed ← is_bot_admin c u;
   k settings allowed) s =
  k (settings_of s c) (authorised s c u) (snd (ensure_chat_settings c s)).
Proof.
  destruct (ensure_result c s) as (He & Hd & _).
  rewrite (bind_ret _ _ _ _ _ He).
  set (s1 := snd (ensure_chat_settings c s)) in *.
  assert (Hb : is_bot_admin c u s1 = (Ret (authorised s c u), s1)).
  { rewrite is_bot_admin_result. rewrite (ensure_present _ _ _ Hd).
    cbn [snd]. f_equal. f_equal. apply authorised_after_ensure. }
  now rewrite (bind_ret _ _ _ _ _ Hb).
Qed.

Lemma settings_of_after_ensure (c : string) (s : state) :
  settings_of (snd (ensure_chat_settings c s)) c = settings_of s c.
Proof.
  destruct (ensure_result c s) as (_ & Hd & _).
  unfold settings_of at 1. now rewrite Hd.
Qed.

Lemma authorised_eq (s1 s2 : state) (c : string) (u : Z) :
  bot_admins (settings_of s2 c) = bot_admins (settings_of s1 c) ->
  int_lists s2 = int_lists s1 ->
  authorised s2 c u = authorised s1 c u.
Proof.
  unfold authorised, chat_bot_admins, settings_of. intros H1 H2.
  now rewrite H1, H2.
Qed.

(** What an accepted switch does once the new value [f] is computed. *)
Lemma switch_write {B : Type} (c : string) (f : ChatSettings -> ChatSettings)
      (k : M B) (d : ChatSettings) (s1 : state) :
  only_calls k ->
  data s1 !! c = Some d ->
  let s' := snd ((assign c f ≫= fun _ => save_data ≫= fun _ => k) s1) in
  settings_of s' c = f d /\
  disk s' = Holds (snapshot s') /\
  writes s' = S (writes s1) /\
  str_lists s' = str_lists s1 /\ int_lists s' = int_lists s1.
Proof.
  intros Hk Hd s'.
  set (s2 := snd (save_data (snd (assign c f s1)))).
  assert (E : s' = snd (k s2)) by reflexivity.
  destruct (Hk s2) as (H1 & H2 & H3 & H4 & H5). rewrite <- E in *.
  split; [|split; [|split; [|split]]].
  - unfold settings_of. rewrite H3. cbn. now rewrite lookup_alter_eq, Hd.
  - rewrite H4. unfold snapshot. rewrite H3. cbn. f_equal.
    apply map_fmap_ext. intros k0 d0 _. unfold deep. now rewrite H1, H2.
  - now rewrite H5.
  - now rewrite H1.
  - now rewrite H2.
Qed.

(** X10.  When the owner or a bot-admin of the chat presses the on/off
    button, the chat's [enabled] setting becomes the opposite of what the
    moderation read before, the file is rewritten and mirrors the memory,
    and the user is still allowed to press, whatever the platform answers to
    the bot's replies; a second press gives back the setting read before the
    first. *)
Theorem toggle_enabled_flips_and_saves
        (pf : platform) (query : CallbackQuery) (s : state) :
  let c := str (q_chat query) in
  let s' := snd (callback_toggle_enabled pf query s) in
  authorised s c (q_from query) = true ->
  is_enabled s' c = negb (is_enabled s c) /\
  disk s' = Holds (snapshot s') /\
  authorised s' c (q_from query) = true /\
  (forall pf2,
     is_enabled (snd (callback_toggle_enabled pf2 query s')) c = is_enabled s c).
Proof.
  intros c s'.
  assert (core : forall pf0 s0,
             authorised s0 c (q_from query) = true ->
             let t := snd (callback_toggle_enabled pf0 query s0) in
             is_enabled t c = negb (is_enabled s0 c) /\
             disk t = Holds (snapshot t) /\
             authorised t c (q_from query) = true).
  { intros pf0 s0 Hauth t. unfold t, callback_toggle_enabled. fold c.
    rewrite (switch_entry c (q_from query)
               (fun settings allowed =>
                  if negb allowed then api pf0 (Answer "Нет прав")
                  else _)).
    rewrite Hauth. cbn [negb].
    destruct (ensure_result c s0) as (_ & Hd & _ & Hi).
    set (s1 := snd (ensure_chat_settings c s0)) in *.
    match goal with
    | |- context [snd ((assign c ?f ≫= fun _ => save_data ≫= fun _ => ?k) s1)] =>
        destruct (switch_write c f k (settings_of s0 c) s1)
          as (E1 & E2 & _ & _ & E5);
          [repeat only_step | exact Hd |]
    end.
    split; [|split].
    - exact (f_equal (fun d => default true (enabled d)) E1).
    - exact E2.
    - etransitivity; [apply authorised_eq|exact Hauth].
      + exact (f_equal bot_admins E1).
      + exact (eq_trans E5 Hi). }
  intros Hauth. destruct (core pf s Hauth) as (E1 & E2 & A1). fold s' in E1, E2, A1.
  split; [exact E1|]. split; [exact E2|]. split; [exact A1|].
  intros pf2. destruct (core pf2 s' A1) as (E3 & _).
  rewrite E3, E1. apply negb_involutive.
Qed.

Lemma toggle_enabled_flips_and_saves_witness :
  is_enabled (snd (callback_toggle_enabled quiet_platform
                     {| q_chat := -1001; q_message_id := 9; q_from := OWNER_ID |}
                     (boot (Holds sample_doc)))) "-1001" = false.
Proof.
  refine (proj1 (toggle_enabled_flips_and_saves quiet_platform
                   {| q_chat := -1001; q_message_id := 9; q_from := OWNER_ID |}
                   (boot (Holds sample_doc)) _)).
  reflexivity.
Defined.

(** With a library whose keyboard constructor raises, the owner's press is
    stored and saved, and then the handler fails before any call is made. *)
Example toggle_saves_then_fails :
  let query := {| q_chat := -1001; q_message_id := 9; q_from := OWNER_ID |} in
  let r := callback_toggle_enabled quiet_platform query (boot (Holds sample_doc)) in
  fst r = Raise ValidationError /\
  sent (snd r) = [] /\
  is_enabled (snd r) "-1001" = false /\
  writes (snd r) = 1%nat.
Proof. cbv zeta. repeat split; vm_compute; reflexivity. Qed.

(** X11.  When the owner or a bot-admin of the chat presses the mode button,
    the mode becomes "all" if the moderation read "admins" before, and
    "admins" in every other case, also when the stored mode was some other
    string; the file is rewritten and mirrors the memory; a second press
    gives back the mode when it was "admins" or "all". *)
Theorem toggle_mode_switches_and_saves
        (pf : platform) (query : CallbackQuery) (s : state) :
  let c := str (q_chat query) in
  let s' := snd (callback_toggle_mode pf query s) in
  authorised s c (q_from query) = true ->
  current_mode s' c =
    (if String.eqb (current_mode s c) "admins" then "all" else "admins") /\
  disk s' = Holds (snapshot s') /\
  authorised s' c (q_from query) = true /\
  (current_mode s c = "admins" \/ current_mode s c = "all" ->
   forall pf2,
     current_mode (snd (callback_toggle_mode pf2 query s')) c = current_mode s c).
Proof.
  intros c s'.
  assert (core : forall pf0 s0,
             authorised s0 c (q_from query) = true ->
             let t := snd (callback_toggle_mode pf0 query s0) in
             current_mode t c =
               (if String.eqb (current_mode s0 c) "admins" then "all" else "admins") /\
             disk t = Holds (snapshot t) /\
             authorised t c (q_from query) = true).
  { intros pf0 s0 Hauth t. unfold t, callback_toggle_mode. fold c.
    rewrite (switch_entry c (q_from query)
               (fun settings allowed =>
                  if negb allowed then api pf0 (Answer "Нет прав")
                  else _)).
    rewrite Hauth. cbn [negb].
    destruct (ensure_result c s0) as (_ & Hd & _ & Hi).
    set (s1 := snd (ensure_chat_settings c s0)) in *.
    match goal with
    | |- context [snd ((assign c ?f ≫= fun _ => save_data ≫= fun _ => ?k) s1)] =>
        destruct (switch_write c f k (settings_of s0 c) s1)
          as (E1 & E2 & _ & _ & E5);
          [repeat only_step | exact Hd |]
    end.
    split; [|split].
    - exact (f_equal (fun d => default "admins" (mode d)) E1).
    - exact E2.
    - etransitivity; [apply authorised_eq|exact Hauth].
      + exact (f_equal bot_admins E1).
      + exact (eq_trans E5 Hi). }
  intros Hauth. destruct (core pf s Hauth) as (E1 & E2 & A1). fold s' in E1, E2, A1.
  split; [exact E1|]. split; [exact E2|]. split; [exact A1|].
  intros Hm pf2. destruct (core pf2 s' A1) as (E3 & _).
  rewrite E3, E1. destruct Hm as [-> | ->]; reflexivity.
Qed.

Lemma toggle_mode_switches_and_saves_witness :
  current_mode (snd (callback_toggle_mode quiet_platform
                       {| q_chat := -1001; q_message_id := 9; q_from := OWNER_ID |}
                       (boot (Holds sample_doc)))) "-1001" = "admins".
Proof.
  refine (proj1 (toggle_mode_switches_and_saves quiet_platform
                   {| q_chat := -1001; q_message_id := 9; q_from := OWNER_ID |}
                   (boot (Holds sample_doc)) _)).
  reflexivity.
Defined.

(** X12.  A press of either switch by a user who is neither the owner nor a
    bot-admin of the chat is answered "Нет прав" and nothing more: the state
    is the one a first reference to the chat leaves, and the [enabled] and
    [mode] settings read as before. *)
Theorem refused_switch_changes_no_setting
        (pf : platform) (query : CallbackQuery) (s : state) :
  let c := str (q_chat query) in
  let s1 := snd (ensure_chat_settings c s) in
  authorised s c (q_from query) = false ->
  callback_toggle_enabled pf query s =
    (respond pf (Answer "Нет прав"), logged (Answer "Нет прав") s1) /\
  callback_toggle_mode pf query s =
    (respond pf (Answer "Нет прав"), logged (Answer "Нет прав") s1) /\
  is_enabled s1 c = is_enabled s c /\
  current_mode s1 c = current_mode s c.
Proof.
  intros c s1 Hauth. split; [|split; [|split]].
  - unfold callback_toggle_enabled. fold c.
    rewrite (switch_entry c (q_from query)
               (fun settings allowed =>
                  if negb allowed then api pf (Answer "Нет прав")
                  else _)).
    now rewrite Hauth.
  - unfold callback_toggle_mode. fold c.
    rewrite (switch_entry c (q_from query)
               (fun settings allowed =>
                  if negb allowed then api pf (Answer "Нет прав")
                  else _)).
    now rewrite Hauth.
  - unfold is_enabled, s1. now rewrite settings_of_after_ensure.
  - unfold current_mode, s1. now rewrite settings_of_after_ensure.
Qed.

Lemma refused_switch_changes_no_setting_witness :
  callback_toggle_enabled quiet_platform
    {| q_chat := -1001; q_message_id := 9; q_from := 5 |}
    (boot (Holds sample_doc)) =
  (Ret tt, logged (Answer "Нет прав") (boot (Holds sample_doc))).
Proof.
  refine (proj1 (refused_switch_changes_no_setting quiet_platform
                   {| q_chat := -1001; q_message_id := 9; q_from := 5 |}
                   (boot (Holds sample_doc)) _)).
  reflexivity.
Defined.

(** ** Who is an admin *)

(** A user who is not the owner and whom the platform does not report as an
    admin is looked up and found not to be one. *)
Lemma is_user_admin_not_admin (pf : platform) (chat_id user_id : Z) (s : state) :
  user_id <> OWNER_ID ->
  ~ platform_admin pf chat_id user_id ->
  is_user_admin pf chat_id user_id s =
  (Ret false, logged (GetChatMember chat_id user_id) s).
Proof.
  intros Hne Hnot. unfold is_user_admin.
  apply Z.eqb_neq in Hne. rewrite Hne.
  unfold try_except, mbind, M_bind, request, lift.
  destruct (get_chat_member pf chat_id user_id) as [[[[|]|e]]|e] eqn:Hm;
    try reflexivity.
  destruct Hnot. eexists. split; [exact Hm|reflexivity].
Qed.

(** X13.  [is_user_admin] never raises and asks the platform at most once:
    it answers [True] exactly when the user is the owner or the platform
    says that the user is an admin of the chat, and the only trace it leaves
    is the membership request, made for everyone but the owner. *)
Theorem is_user_admin_total (pf : platform) (chat_id user_id : Z) (s : state) :
  exists b,
    is_user_admin pf chat_id user_id s =
      (Ret b, if Z.eqb user_id OWNER_ID then s
              else logged (GetChatMember chat_id user_id) s) /\
    (b = true <-> user_id = OWNER_ID \/ platform_admin pf chat_id user_id).
Proof.
  unfold is_user_admin, platform_admin.
  destruct (Z.eqb_spec user_id OWNER_ID) as [E|E].
  - exists true. split; [reflexivity|]. split; auto.
  - unfold try_except, mbind, M_bind, request, lift.
    destruct (get_chat_member pf chat_id user_id) as [[[[|]|e]]|e] eqn:Hm; cbn.
    + exists true. split; [reflexivity|]. split; [|reflexivity].
      intros _. right. eexists. split; reflexivity.
    + exists false. split; [reflexivity|]. split; [discriminate|].
      intros [H|(member & H1 & H2)]; [contradiction|].
      injection H1 as <-. discriminate H2.
    + exists false. split; [reflexivity|]. split; [discriminate|].
      intros [H|(member & H1 & H2)]; [contradiction|].
      injection H1 as <-. discriminate H2.
    + exists false. split; [reflexivity|]. split; [discriminate|].
      intros [H|(member & H1 & H2)]; [contradiction|]. discriminate H1.
Qed.

Lemma authorised_owner (s : state) (c : string) : authorised s c OWNER_ID = true.
Proof. unfold authorised. apply orb_true_r. Qed.

(** X14.  The owner passes [is_bot_admin] in any chat, whatever its
    settings.  The command of a user who passes it, the owner or a user in
    the chat's bot-admin list, is never answered with the rejection: when
    the library builds the keyboard, the one call made is the reply
    "**Админ-панель:**" with the keyboard built from the six buttons; when
    building the keyboard raises, no call is made and the exception leaves
    the handler.  The store is then as a first reference to the chat leaves
    it. *)
Theorem panel_opens_for_owner_and_bot_admins
        (pf : platform) (message : Message) (s : state) :
  let c := str (chat message) in
  let s1 := snd (ensure_chat_settings c s) in
  authorised s c OWNER_ID = true /\
  length admin_panel_buttons = 6%nat /\
  (authorised s c (from_user message) = true ->
   show_admin_panel pf message s =
   match build_markup pf admin_panel_buttons with
   | Ret keyboard =>
       let panel := Reply (chat message) (message_id message)
                          "**Админ-панель:**" keyboard in
       (respond pf panel, logged panel s1)
   | Raise e => (Raise e, s1)
   end).
Proof.
  intros c s1. split; [apply authorised_owner|]. split; [reflexivity|].
  intros Hauth.
  unfold show_admin_panel. fold c.
  rewrite (bind_ret _ _ _ _ _ (is_bot_admin_result _ _ _)).
  fold (authorised s c (from_user message)). rewrite Hauth. cbn [negb].
  unfold admin_panel_keyboard, lift, mbind, M_bind. fold s1.
  now destruct (build_markup pf admin_panel_buttons).
Qed.

(** The owner's command in a private chat: with a library whose keyboard
    constructor raises, nothing is sent; with one that builds the keyboard,
    the panel is. *)
Lemma panel_opens_for_owner_and_bot_admins_witness :
  show_admin_panel quiet_platform owner_command (boot Missing) =
    (Raise ValidationError, snd (ensure_chat_settings "42" (boot Missing))) /\
  sent (snd (show_admin_panel quiet_platform owner_command (boot Missing))) = [] /\
  sent (snd (show_admin_panel keyboard_platform owner_command (boot Missing))) =
    [Reply 42 1 "**Админ-панель:**" admin_panel_buttons].
Proof.
  pose proof (proj2 (proj2 (panel_opens_for_owner_and_bot_admins
                              quiet_platform owner_command (boot Missing)))
                    eq_refl) as E1.
  pose proof (proj2 (proj2 (panel_opens_for_owner_and_bot_admins
                              keyboard_platform owner_command (boot Missing)))
                    eq_refl) as E2.
  split; [exact E1|]. split; [now rewrite E1|now rewrite E2].
Defined.

(** ** When the engine stays silent *)

Lemma mod_message_enabled `{Unicode} (pf : platform) (message : Message) (s : state) :
  in_group message = true ->
  mod_message pf message s =
  (let c := str (chat message) in
   let settings := settings_of s c in
   if negb (is_enabled s c) then mret tt
   else
     exempt ←
       (if String.eqb (current_mode s c) "admins"
        then is_user_admin pf (chat message) (from_user message)
        else mret false);
     if exempt : bool then mret tt else moderate pf message settings)
    (snd (ensure_chat_settings (str (chat message)) s)).
Proof.
  intros Hg. unfold mod_message. rewrite Hg. cbn [negb]. cbv zeta.
  destruct (ensure_result (str (chat message)) s) as (He & _).
  now rewrite (bind_ret _ _ _ _ _ He).
Qed.

(** X15.  A message outside a group or supergroup is not looked at: nothing
    is stored and nothing is sent.  In a chat where the bot is switched off,
    no call is made to the platform, whatever the message says. *)
Theorem silent_outside_groups_and_when_disabled `{Unicode}
        (pf : platform) (message : Message) (s : state) :
  (in_group message = false -> mod_message pf message s = (Ret tt, s)) /\
  (in_group message = true ->
   is_enabled s (str (chat message)) = false ->
   mod_message pf message s =
     (Ret tt, snd (ensure_chat_settings (str (chat message)) s)) /\
   sent (snd (mod_message pf message s)) = sent s).
Proof.
  split.
  - intros Hg. unfold mod_message. now rewrite Hg.
  - intros Hg Hoff. rewrite (mod_message_enabled _ _ _ Hg). cbv zeta.
    rewrite Hoff. split; [reflexivity|]. cbn [negb snd mret M_ret].
    destruct (data s !! str (chat message)) as [d|] eqn:E.
    + now rewrite (ensure_present _ _ _ E).
    + now rewrite (ensure_absent _ _ E).
Qed.

Lemma silent_outside_groups_and_when_disabled_witness :
  @mod_message tables quiet_platform
    {| chat_type := "private"; chat := 42; message_id := 1; from_user := 5;
       username := None; full_name := "Bob";
       msg_text := Some (u "spam http://x.io"); msg_caption := None |}
    (boot (Holds sample_doc)) =
  (Ret tt, boot (Holds sample_doc)).
Proof.
  apply (proj1 (@silent_outside_groups_and_when_disabled tables quiet_platform _ _)).
  reflexivity.
Defined.

(** X16.  In mode "admins" the owner is left alone whatever the message
    says, and no call is made, not even the membership request.  Any other
    sender is looked up with one membership request, and is not exempt
    unless the platform says so: when the request raises, when reading the
    role raises (as it does on a member object without [is_chat_admin]), or
    when the role read is not that of an admin, the message goes to the
    check. *)
Theorem exemption_in_mode_admins `{Unicode}
        (pf : platform) (message : Message) (s : state) :
  let c := str (chat message) in
  let s1 := snd (ensure_chat_settings c s) in
  in_group message = true ->
  is_enabled s c = true ->
  current_mode s c = "admins" ->
  (from_user message = OWNER_ID ->
   mod_message pf message s = (Ret tt, s1) /\ sent s1 = sent s) /\
  (from_user message <> OWNER_ID ->
   ~ platform_admin pf (chat message) (from_user message) ->
   mod_message pf message s =
   moderate pf message (settings_of s c)
            (logged (GetChatMember (chat message) (from_user message)) s1)).
Proof.
  intros c s1 Hg Hon Hmode.
  assert (Hsent : sent s1 = sent s).
  { unfold s1. destruct (data s !! c) as [d|] eqn:E.
    - now rewrite (ensure_present _ _ _ E).
    - now rewrite (ensure_absent _ _ E). }
  rewrite (mod_message_enabled _ _ _ Hg). cbv zeta. fold c. fold s1.
  rewrite Hon, Hmode. cbn [negb String.eqb Ascii.eqb Bool.eqb].
  split.
  - intros Ho. unfold is_user_admin. rewrite Ho, Z.eqb_refl.
    split; [reflexivity|exact Hsent].
  - intros Hne Hnot.
    now rewrite (bind_ret _ _ _ _ _ (is_user_admin_not_admin _ _ _ _ Hne Hnot)).
Qed.

(** A member of a new chat, whose role cannot be read, posts a link: the
    member is looked up, then muted for the ten minutes of the defaults. *)
Lemma exemption_in_mode_admins_witness :
  sent (snd (@mod_message tables quiet_platform (sample_message "spam http://x.io")
                          (boot Missing))) =
  [ GetChatMember (-1001) 5;
    DeleteMessage (-1001) 7;
    RestrictChatMember (-1001) 5 1762215000;
    SendMessage (-1001) (notice "@bob" "ссылку" "получил мут на 10 минут") ].
Proof.
  rewrite (proj2 (@exemption_in_mode_admins tables quiet_platform
                    (sample_message "spam http://x.io") (boot Missing)
                    eq_refl eq_refl eq_refl)).
  - vm_compute. reflexivity.
  - discriminate.
  - intros (member & Hm & Ha). injection Hm as <-. discriminate Ha.
Defined.

(** X17.  In any mode other than "admins" nobody is exempt and nobody is
    looked up: the message of any sender, the owner and the chat's admins
    included, goes to the check without a membership request. *)
Theorem everyone_is_checked_in_mode_all `{Unicode}
        (pf : platform) (message : Message) (s : state) :
  let c := str (chat message) in
  in_group message = true ->
  is_enabled s c = true ->
  current_mode s c <> "admins" ->
  mod_message pf message s =
  moderate pf message (settings_of s c) (snd (ensure_chat_settings c s)).
Proof.
  intros c Hg Hon Hmode.
  rewrite (mod_message_enabled _ _ _ Hg). cbv zeta. fold c.
  apply String.eqb_neq in Hmode. rewrite Hon, Hmode. reflexivity.
Qed.

Lemma everyone_is_checked_in_mode_all_witness :
  sent (snd (@mod_message tables quiet_platform (owner_message "some SPAM")
                          (boot (Holds sample_doc)))) =
  [ DeleteMessage (-1001) 7;
    BanChatMember (-1001) OWNER_ID;
    SendMessage (-1001) (notice "Owner" "запрещённое слово" "был заблокирован") ].
Proof.
  rewrite (@everyone_is_checked_in_mode_all tables quiet_platform
             (owner_message "some SPAM") (boot (Holds sample_doc))
             eq_refl eq_refl).
  - vm_compute. reflexivity.
  - vm_compute. discriminate.
Defined.

(** ** What the engine does to a message *)

Lemma violations_findings `{Unicode}
      (settings : ChatSettings) (text : ustring) (s : state) :
  violations settings text s = (Ret (findings s settings text), s).
Proof. apply violations_result. Qed.

(** X18.  A message in which no banned word is found, and in which no link
    is found or link protection is off, is left alone: nothing is deleted,
    nothing is sent, nothing is stored. *)
Theorem clean_message_is_left_alone `{Unicode}
        (pf : platform) (message : Message) (settings : ChatSettings) (s : state) :
  findings s settings (message_text message) = (false, false) ->
  moderate pf message settings s = (Ret tt, s).
Proof.
  intros E. unfold moderate.
  rewrite (bind_ret _ _ _ _ _ (violations_findings _ _ _)), E. reflexivity.
Qed.

Lemma clean_message_is_left_alone_witness :
  @moderate tables dead_platform (sample_message "mirror at example.org/x")
            sample_settings (boot (Holds sample_doc)) =
  (Ret tt, boot (Holds sample_doc)).
Proof.
  apply (@clean_message_is_left_alone tables). vm_compute. reflexivity.
Defined.

Lemma api_sent (pf : platform) (c : call) (s : state) :
  sent (snd (api pf c s)) = sent s ++ [c].
Proof. reflexivity. Qed.

Lemma guarded_api_then (pf : platform) (c1 c2 : call) (s : state) :
  sent (snd ((try_except (api pf c1) (fun _ => mret tt) ≫= fun _ => api pf c2) s)) =
  sent s ++ [c1; c2].
Proof.
  unfold try_except, mbind, M_bind, api, request.
  destruct (respond pf c1); cbn; now rewrite <- app_assoc.
Qed.

Lemma punish_sent (pf : platform) (message : Message) (name action : string)
      (secs : Z) (reason : string) (s : state) :
  sent (snd (punish pf message name action secs reason s)) =
  sent s ++ punish_calls message name action (date_after pf secs) secs reason.
Proof.
  unfold punish, punish_calls.
  destruct (String.eqb action "warn"); [apply api_sent|].
  destruct (String.eqb action "mute").
  { unfold lift, mbind at 1, M_bind at 1.
    destruct (date_after pf secs) as [date|e]; [apply guarded_api_then|].
    cbn. now rewrite app_nil_r. }
  destruct (String.eqb action "ban"); [apply guarded_api_then|].
  cbn. now rewrite app_nil_r.
Qed.

Lemma punish_raises (pf : platform) (message : Message) (name : string)
      (secs : Z) (reason : string) (e : exn) (s : state) :
  date_after pf secs = Raise e ->
  punish pf message name "mute" secs reason s = (Raise e, s).
Proof.
  intros E. unfold punish. cbn [String.eqb Ascii.eqb Bool.eqb].
  unfold lift, mbind, M_bind. now rewrite E.
Qed.

Lemma delete_offending_result (pf : platform) (message : Message) (s : state) :
  delete_offending pf message s =
  (Ret tt, logged (DeleteMessage (chat message) (message_id message)) s).
Proof.
  unfold delete_offending, try_except, api, request, logged.
  now destruct (respond pf _) as [[]|e].
Qed.

(** X19.  The calls the engine makes for a message do not depend on what
    the platform answers to them: a deletion, a restriction or a ban that
    fails stops nothing.  For a message with a violation they are the
    deletion, then the calls of the selected action, the restriction
    carrying the date computed from the duration; an action that is not
    "warn", "mute" or "ban" leaves the deletion alone.  When the action is
    "mute" and the date cannot be computed, the deletion is the only call
    and the exception leaves the handler. *)
Theorem calls_do_not_depend_on_failures `{Unicode}
        (pf : platform) (message : Message) (settings : ChatSettings) (s : state) :
  let '(is_banned, found_link) := findings s settings (message_text message) in
  sent (snd (moderate pf message settings s)) =
    sent s ++
    match select_action settings is_banned found_link with
    | Some (action, mute_seconds, reason) =>
        DeleteMessage (chat message) (message_id message)
        :: punish_calls message (display_name message) action
                        (date_after pf mute_seconds) mute_seconds reason
    | None => []
    end /\
  (forall mute_seconds reason e,
     select_action settings is_banned found_link =
       Some ("mute", mute_seconds, reason) ->
     date_after pf mute_seconds = Raise e ->
     moderate pf message settings s =
     (Raise e, logged (DeleteMessage (chat message) (message_id message)) s)).
Proof.
  destruct (findings s settings (message_text message)) as [b l] eqn:E.
  unfold moderate.
  rewrite (bind_ret _ _ _ _ _ (violations_findings _ _ _)), E.
  split.
  - destruct b, l; cbn [negb andb].
    4:{ cbn. now rewrite app_nil_r. }
    all: rewrite (bind_ret _ _ _ _ _ (delete_offending_result _ _ _));
      cbn [select_action]; rewrite punish_sent; cbn [logged sent];
      now rewrite <- app_assoc.
  - intros secs reason e Hsel Hdate.
    destruct b, l; cbn [negb andb]; try discriminate Hsel.
    all: rewrite (bind_ret _ _ _ _ _ (delete_offending_result _ _ _));
      rewrite Hsel; now apply punish_raises.
Qed.

(** A link under settings that mute for 10^12 seconds: the date is out of
    range, the message is deleted and nothing else is done. *)
Lemma calls_do_not_depend_on_failures_witness :
  @moderate tables dead_platform (sample_message "join t.me/x")
            endless_mute_settings (boot Missing) =
  (Raise OverflowError, logged (DeleteMessage (-1001) 7) (boot Missing)).
Proof.
  pose proof (@calls_do_not_depend_on_failures tables dead_platform
                (sample_message "join t.me/x") endless_mute_settings
                (boot Missing)) as E.
  change (@findings tables (boot Missing) endless_mute_settings
            (message_text (sample_message "join t.me/x")))
    with (false, true) in E.
  exact (proj2 E 1000000000000 "ссылку" OverflowError eq_refl eq_refl).
Defined.

(** X20.  When a link and no banned word is found in a message, the engine
    deletes the message and carries out the action configured for links,
    with the duration configured for links and "ссылку" as the reason. *)
Theorem link_violation_uses_link_settings `{Unicode}
        (pf : platform) (message : Message) (settings : ChatSettings) (s : state) :
  findings s settings (message_text message) = (false, true) ->
  moderate pf message settings s =
    (delete_offending pf message ;;
     punish pf message (display_name message)
            (default "mute" (action_links settings))
            (default 600 (mute_seconds_links settings))
            "ссылку") s.
Proof.
  intros E. unfold moderate.
  rewrite (bind_ret _ _ _ _ _ (violations_findings _ _ _)), E. reflexivity.
Qed.

Lemma link_violation_uses_link_settings_witness :
  sent (snd (@moderate tables dead_platform (sample_message "join t.me/x")
                       sample_settings (boot (Holds sample_doc)))) =
  [ DeleteMessage (-1001) 7;
    SendMessage (-1001) (notice "@bob" "ссылку" "получил предупреждение") ].
Proof.
  rewrite (@link_violation_uses_link_settings tables dead_platform
             (sample_message "join t.me/x") sample_settings
             (boot (Holds sample_doc))).
  - vm_compute. reflexivity.
  - vm_compute. reflexivity.
Defined.

(** ** First and later references to a chat *)

(** X21.  After a first reference to a chat, a further reference gives the
    same settings and changes nothing: the defaults are created and written
    once. *)
Theorem second_reference_changes_nothing (chat_id : string) (s : state) :
  let s1 := snd (ensure_chat_settings chat_id s) in
  ensure_chat_settings chat_id s1 = (fst (ensure_chat_settings chat_id s), s1).
Proof.
  intros s1. destruct (ensure_result chat_id s) as (He & Hd & _).
  fold s1 in He, Hd. rewrite (ensure_present _ _ _ Hd). now rewrite He.
Qed.

(** X22.  The minutes shown in the mute notification are the duration
    rounded down to whole minutes: for a duration of at least 60 seconds the
    number shown, times 60, is at most the duration and misses it by less
    than 60 seconds. *)
Theorem minutes_are_rounded_down (mute_seconds : Z) :
  60 <= mute_seconds ->
  exists minutes,
    minutes_text mute_seconds = str minutes +:+ " минут" /\
    60 * minutes <= mute_seconds < 60 * minutes + 60.
Proof.
  intros H. exists (mute_seconds / 60). split.
  - unfold minutes_text. cbv zeta.
    assert (H1 : 1 <= mute_seconds / 60) by (apply Z.div_le_lower_bound; lia).
    apply Z.leb_le in H1. now rewrite H1.
  - pose proof (Z.div_mod mute_seconds 60 ltac:(lia)) as E.
    pose proof (Z.mod_pos_bound mute_seconds 60 ltac:(lia)) as B.
    lia.
Qed.

Lemma minutes_are_rounded_down_witness :
  exists minutes,
    minutes_text 119 = str minutes +:+ " минут" /\
    60 * minutes <= 119 < 60 * minutes + 60.
Proof. apply (minutes_are_rounded_down 119). lia. Defined.
